(** * tvb-multiscale: communicators, ANNarchy output devices, SBI batch scripts

    A shallow embedding of

    - [tvb_multiscale/core/interfaces/base/io.py]
      (the [Communicator] hierarchy and its NumPy / in-memory transports),
    - [tvb_multiscale/tvb_annarchy/annarchy_models/devices.py]
      (the [ANNarchyOutputDevice] family),
    - [examples/tvb_nest/notebooks/cerebellum/scripts/sbi_script.py]
      ([priors_samples_per_batch], [load_posterior_samples_all_runs],
      [load_posterior_samples_all_Gs]),

    followed by the properties of the specification that concern them.

    Python objects with identity (arrays, transformers) live in an explicit
    store; exceptions are values of [result]; dictionaries are [gmap]s or,
    where insertion order matters, association lists. *)

From Stdlib Require Import ZArith List String Ascii Lia Permutation.
From stdpp Require Import base option list gmap strings sorting.

#[local] Set Warnings "-register-all".

Open Scope string_scope.
Open Scope list_scope.

(* ===================================================================== *)
(** * Part I.  Definitions                                                *)
(* ===================================================================== *)

(** ** Python exceptions and results *)

Module Py.

(** The exception classes the modelled code can raise.  The three with a
    payload carry the offending attribute, key or name.  [BadZipFile] is
    [zipfile.BadZipFile] and [RuntimeError] the built-in class; both derive
    from [Exception] directly.  [SystemError] stands for an interpreter
    fault; it only appears where a total function needs a value for a
    situation Python rules out. *)
Inductive exn : Type :=
| TypeError
| IndexError
| ValueError
| EOFError
| KeyError (key : string)
| AttributeError (attr : string)
| NameError (name : string)
| FileNotFoundError
| OSError
| BadZipFile
| RuntimeError
| SystemError.

(** [isinstance(e, OSError)]; in Python 3 [IOError] is an alias of
    [OSError], and [FileNotFoundError] one of its subclasses. *)
Definition is_IOError (e : exn) : bool :=
  match e with
  | FileNotFoundError | OSError => true
  | _ => false
  end.

(** The error taxonomy of the specification (section 7). *)
Inductive error_kind : Type :=
| ShapeMismatch
| UnknownPopulation
| IOError
| TransformError
| Unclassified.

(** No class of the source corresponds to [ShapeMismatch],
    [UnknownPopulation] or [TransformError]: the only exceptions of the
    taxonomy that the code can raise are the operating system's. *)
Definition kind_of (e : exn) : error_kind :=
  if is_IOError e then IOError else Unclassified.

Inductive result (A : Type) : Type :=
| Ok (a : A)
| Raise (e : exn).
Arguments Ok {A} a.
Arguments Raise {A} e.

Definition is_Ok {A} (r : result A) : bool :=
  match r with Ok _ => true | Raise _ => false end.

Definition rbind {A B} (r : result A) (f : A -> result B) : result B :=
  match r with
  | Ok a => f a
  | Raise e => Raise e
  end.

(** [s.endswith(suffix)] *)
Definition endswith (s suffix : string) : bool :=
  let n := String.length s in
  let k := String.length suffix in
  (k <=? n)%nat && String.eqb (substring (n - k) k s) suffix.

(** [l[i]] on a Python sequence, for a non-negative literal index. *)
Definition getitem {A} (l : list A) (i : nat) : result A :=
  match nth_error l i with
  | Some x => Ok x
  | None => Raise IndexError
  end.

(** [l[i]] for an arbitrary integer: negative indices count from the
    end. *)
Definition index {A} (l : list A) (i : Z) : result A :=
  let n := Z.of_nat (length l) in
  let j := if (i <? 0)%Z then (i + n)%Z else i in
  if (0 <=? j)%Z && (j <? n)%Z then getitem l (Z.to_nat j)
  else Raise IndexError.

(** [range(n)] *)
Definition range (n : Z) : list nat := seq 0 (Z.to_nat n).

(** [l.index(x)] *)
Fixpoint list_index {A} `{EqDecision A} (x : A) (l : list A) : result nat :=
  match l with
  | [] => Raise ValueError
  | y :: l' =>
      if decide (x = y) then Ok 0%nat
      else rbind (list_index x l') (fun i => Ok (S i))
  end.

(** Running a fallible function over a sequence, left to right. *)
Fixpoint mapM {A B} (f : A -> result B) (l : list A) : result (list B) :=
  match l with
  | [] => Ok []
  | x :: l' =>
      rbind (f x) (fun y => rbind (mapM f l') (fun ys => Ok (y :: ys)))
  end.

(** [d[key] = v] on a dictionary with string keys, in insertion order. *)
Fixpoint setitem_str {V} (key : string) (v : V) (d : list (string * V))
    : list (string * V) :=
  match d with
  | [] => [(key, v)]
  | (k, v') :: d' =>
      if String.eqb key k then (k, v) :: d' else (k, v') :: setitem_str key v d'
  end.

Fixpoint assoc {A} (k : string) (l : list (string * A)) : option A :=
  match l with
  | [] => None
  | (k', v) :: l' => if String.eqb k k' then Some v else assoc k l'
  end.

End Py.
Import Py.

(** ** NumPy arrays, the object store and the file system *)

Module NumPy.

Inductive dtype : Type := int64 | float64 | bool_ | object_.

(** An array is its element type, its shape and its elements in row-major
    order, each element given by its bit pattern (64-bit word). *)
Record ndarray : Type := mk_ndarray
  { a_dtype : dtype;
    a_shape : list nat;
    a_words : list Z }.

Definition numeric (a : ndarray) : bool :=
  match a_dtype a with
  | object_ => false
  | _ => true
  end.

(** The members of a zip archive may be stored or deflated. *)
Inductive zip_compression : Type := ZIP_STORED | ZIP_DEFLATED.

(** The files [np.load] can meet.  [ZipFile] is a zip archive whose
    members are arrays in the [.npy] format, as [np.savez] writes them
    (archives with members in another format are not modelled);
    [NpyFile] is one array in the [.npy] format; [OtherFile] is any other
    file, given by its bytes: neither a readable archive nor a readable
    [.npy] file. *)
Inductive file : Type :=
| ZipFile (compression : zip_compression) (members : list (string * ndarray))
| NpyFile (a : ndarray)
| OtherFile (bytes : list Z).

(** References to arrays and to transformers. *)
Definition loc := positive.

(** Modelled from the spec: the [Transformer] class
    ([tvb_multiscale.core.interfaces.base.transformers.models], not among
    the sources) "holds [input_time], [input_buffer], [output_time],
    [output_buffer]"; each attribute references an array. *)
Record Transformer : Type := mk_Transformer
  { input_time : loc;
    input_buffer : loc;
    output_time : loc;
    output_buffer : loc }.

(** The world a communicator acts on: the arrays and transformers in
    memory (by reference) and the files on disk (by path).
    [can_open_w p] tells whether [open(p, "wb")] succeeds. *)
Record world : Type := mk_world
  { arrays : gmap loc ndarray;
    transformers : gmap loc Transformer;
    files : gmap string file;
    can_open_w : string -> bool }.

Definition set_arrays (f : gmap loc ndarray -> gmap loc ndarray) (w : world)
    : world :=
  {| arrays := f (arrays w); transformers := transformers w;
     files := files w; can_open_w := can_open_w w |}.

Definition set_transformers (f : gmap loc Transformer -> gmap loc Transformer)
    (w : world) : world :=
  {| arrays := arrays w; transformers := f (transformers w);
     files := files w; can_open_w := can_open_w w |}.

Definition set_files (f : gmap string file -> gmap string file) (w : world)
    : world :=
  {| arrays := arrays w; transformers := transformers w;
     files := f (files w); can_open_w := can_open_w w |}.

(** State-and-exception monad: an exception keeps the mutations made
    before it was raised. *)
Definition M (A : Type) : Type := world -> result A * world.

Definition ret {A} (a : A) : M A := fun w => (Ok a, w).
Definition raise {A} (e : exn) : M A := fun w => (Raise e, w).
Definition bind {A B} (m : M A) (f : A -> M B) : M B :=
  fun w =>
    match m w with
    | (Ok a, w') => f a w'
    | (Raise e, w') => (Raise e, w')
    end.
Definition lift {A} (r : result A) : M A := fun w => (r, w).

Notation "'do' x <- m ; k" := (bind m (fun x => k))
  (at level 10, x name, m at level 100, k at level 200).
Notation "'run' m ; k" := (bind m (fun _ => k))
  (at level 10, m at level 100, k at level 200).

(** Reading through a reference.  Python references are never dangling;
    the [None] branch is there to make the function total. *)
Definition deref (l : loc) : M ndarray :=
  fun w =>
    match arrays w !! l with
    | Some a => (Ok a, w)
    | None => (Raise SystemError, w)
    end.

(** A new array object. *)
Definition alloc (a : ndarray) : M loc :=
  fun w =>
    let l := fresh (dom (arrays w)) in
    (Ok l, set_arrays (insert l a) w).

(** [np.copy(a)]: a new array object with the same contents. *)
Definition np_copy (l : loc) : M loc :=
  do a <- deref l; alloc a.

(** In-place element assignment [a.flat[i] = v]. *)
Definition setitem (l : loc) (i : nat) (v : Z) : M unit :=
  do a <- deref l;
  if (i <? length (a_words a))%nat
  then fun w =>
    (Ok tt, set_arrays (insert l (mk_ndarray (a_dtype a) (a_shape a)
                                    (<[i := v]> (a_words a)))) w)
  else raise IndexError.

(** [np.savez(file, **kwds)]: "if file is a string, the .npz extension
    will be appended to the filename if it is not already there"; the
    arrays are written as members [<name>.npy] of an uncompressed
    ([ZIP_STORED]) archive ([np.savez_compressed] is the deflating
    variant).  When the file cannot be opened for writing the exception
    is the operating system's: [OSError] stands for it and for its
    subclasses. *)
Definition npz_name (file : string) : string :=
  if endswith file ".npz" then file else file +:+ ".npz".

Fixpoint npy_members (kwds : list (string * loc))
    : M (list (string * ndarray)) :=
  match kwds with
  | [] => ret []
  | (k, l) :: kwds' =>
      do a <- deref l;
      do members <- npy_members kwds';
      ret ((k +:+ ".npy", a) :: members)
  end.

Definition np_savez (file : string) (kwds : list (string * loc)) : M unit :=
  do members <- npy_members kwds;
  fun w =>
    let p := npz_name file in
    if can_open_w w p
    then (Ok tt, set_files (insert p (ZipFile ZIP_STORED members)) w)
    else (Raise OSError, w).

(** What [np.load(file)] returns, with its default [allow_pickle=False]. *)
Inductive loaded : Type :=
| NpzFile (members : list (string * ndarray))
| Array (a : ndarray).

(** [format.read_array] with [allow_pickle=False]: "Object arrays cannot
    be loaded when allow_pickle=False". *)
Definition read_array (a : ndarray) : result ndarray :=
  if numeric a then Ok a else Raise ValueError.

(** [magic.startswith(_ZIP_PREFIX) or magic.startswith(_ZIP_SUFFIX)]: the
    first bytes are [PK\x03\x04] or [PK\x05\x06]. *)
Definition zip_magic (bytes : list Z) : bool :=
  match bytes with
  | 80 :: 75 :: 3 :: 4 :: _ => true
  | 80 :: 75 :: 5 :: 6 :: _ => true
  | _ => false
  end%Z.

(** [np.load(file)]: an empty file raises [EOFError]; a file that starts
    with the zip magic is opened with [zipfile.ZipFile], which raises
    [BadZipFile] when it is no archive; a file in the [.npy] format is
    read at once; any other content raises [ValueError] (a [.npy] magic
    with an unreadable header or data, or else a pickle, refused because
    [allow_pickle=False]). *)
Definition np_load (file : string) : M loaded :=
  fun w =>
    match files w !! file with
    | None => (Raise FileNotFoundError, w)
    | Some (ZipFile _ members) => (Ok (NpzFile members), w)
    | Some (NpyFile a) => (rbind (read_array a) (fun a => Ok (Array a)), w)
    | Some (OtherFile []) => (Raise EOFError, w)
    | Some (OtherFile (b :: bytes)) =>
        if zip_magic (b :: bytes) then (Raise BadZipFile, w)
        else (Raise ValueError, w)
    end.

(** [NpzFile.__getitem__(key)]: the key is a member name, with or without
    its [.npy] extension. *)
Definition npz_getitem (members : list (string * ndarray)) (key : string)
    : result ndarray :=
  match assoc key members with
  | Some a => read_array a
  | None =>
      match assoc (key +:+ ".npy") members with
      | Some a => read_array a
      | None => Raise (KeyError key)
      end
  end.

End NumPy.
Import NumPy.

(** ** [tvb_multiscale/core/interfaces/base/io.py] *)

Module IO.

(** The concrete communicator classes.  [Sender] declares the class
    attribute [target] and its subclasses redeclare it ([Attr] of a
    [Transformer], [Attr] of a path); [Receiver] does the same with
    [source].  An instance is its class together with the value of that
    attribute. *)
Inductive Communicator : Type :=
| SetToTransformer (target : loc)
| GetFromTransformer (source : loc)
| NPZWriter (target : string)
| NPZReader (source : string).

Definition is_Sender (self : Communicator) : bool :=
  match self with
  | SetToTransformer _ | NPZWriter _ => true
  | GetFromTransformer _ | NPZReader _ => false
  end.

(** [Communicator.__repr__]: [self.__class__.__name__] *)
Definition repr (self : Communicator) : string :=
  match self with
  | SetToTransformer _ => "SetToTransformer"
  | GetFromTransformer _ => "GetFromTransformer"
  | NPZWriter _ => "NPZWriter"
  | NPZReader _ => "NPZReader"
  end.

Inductive endpoint : Type :=
| Path (p : string)
| TransformerRef (t : loc).

(** Attribute lookup [self.<name>] for the two endpoint attributes: the
    instance, then the classes of its MRO; a name none of them declares
    raises [AttributeError]. *)
Definition getattr (self : Communicator) (name : string) : result endpoint :=
  match self with
  | SetToTransformer t =>
      if String.eqb name "target" then Ok (TransformerRef t)
      else Raise (AttributeError name)
  | NPZWriter p =>
      if String.eqb name "target" then Ok (Path p)
      else Raise (AttributeError name)
  | GetFromTransformer t =>
      if String.eqb name "source" then Ok (TransformerRef t)
      else Raise (AttributeError name)
  | NPZReader p =>
      if String.eqb name "source" then Ok (Path p)
      else Raise (AttributeError name)
  end.

Definition nl : string := String (ascii_of_nat 10) EmptyString.

Section PrintStr.

(** [str(t)] of a transformer, defined with the [Transformer] class. *)
Variable str_Transformer : loc -> string.

Definition str (v : endpoint) : string :=
  match v with
  | Path p => p
  | TransformerRef t => str_Transformer t
  end.

(** [Communicator.print_str(self, sender_not_receiver_flag=None)];
    the flag is [Some true] for [True], [Some false] for [False]. *)
Definition Communicator_print_str (self : Communicator)
    (sender_not_receiver_flag : option bool) : result string :=
  rbind
    (match sender_not_receiver_flag with
     | Some true =>
         rbind (getattr self "source")
               (fun v => Ok (nl +:+ "Source: " +:+ str v))
     | Some false =>
         rbind (getattr self "target")
               (fun v => Ok (nl +:+ "Target: " +:+ str v))
     | None => Ok ""
     end)
    (fun source_or_target =>
       Ok (nl +:+ repr self +:+ ":" +:+ source_or_target)).

(** [Sender.print_str]: [super(Sender, self).print_str(True)] *)
Definition Sender_print_str (self : Communicator) : result string :=
  Communicator_print_str self (Some true).

(** [Receiver.print_str]: [super(Receiver, self).print_str(False)] *)
Definition Receiver_print_str (self : Communicator) : result string :=
  Communicator_print_str self (Some false).

(** [self.print_str()], resolved along the MRO of the instance. *)
Definition print_str (self : Communicator) : result string :=
  if is_Sender self then Sender_print_str self else Receiver_print_str self.

End PrintStr.

(** The argument of [send]: [None], or a sequence of array references. *)
Definition data : Type := option (list loc).

(** [data[i]] *)
Definition subscript (d : data) (i : nat) : M loc :=
  match d with
  | None => raise TypeError
  | Some items => lift (getitem items i)
  end.

Definition get_transformer (t : loc) : M Transformer :=
  fun w =>
    match transformers w !! t with
    | Some tr => (Ok tr, w)
    | None => (Raise SystemError, w)
    end.

(** [t.input_time = l] and [t.input_buffer = l] *)
Definition set_input_time (t l : loc) : M unit :=
  do tr <- get_transformer t;
  fun w =>
    (Ok tt, set_transformers
              (insert t (mk_Transformer l (input_buffer tr)
                           (output_time tr) (output_buffer tr))) w).

Definition set_input_buffer (t l : loc) : M unit :=
  do tr <- get_transformer t;
  fun w =>
    (Ok tt, set_transformers
              (insert t (mk_Transformer (input_time tr) l
                           (output_time tr) (output_buffer tr))) w).

(** [SetToTransformer.send] *)
Definition SetToTransformer_send (target : loc) (d : data) : M unit :=
  do x <- subscript d 0;
  do x' <- np_copy x;
  run set_input_time target x';
  do y <- subscript d 1;
  do y' <- np_copy y;
  set_input_buffer target y'.

(** [GetFromTransformer.receive] *)
Definition GetFromTransformer_receive (source : loc) : M (list loc) :=
  do tr <- get_transformer source;
  do t' <- np_copy (output_time tr);
  do tr <- get_transformer source;
  do b' <- np_copy (output_buffer tr);
  ret [t'; b'].

(** [NPZWriter.send] *)
Definition NPZWriter_send (target : string) (d : data) : M unit :=
  do x <- subscript d 0;
  do y <- subscript d 1;
  np_savez target [("time", x); ("values", y)].

(** [NPZReader.receive]; an [ndarray] is not a context manager, so a
    source that is a plain [.npy] file fails at the [with] statement: with
    [TypeError] from Python 3.11 on, which is what is modelled
    ([AttributeError] on the versions before). *)
Definition NPZReader_receive (source : string) : M (list loc) :=
  do datafile <- np_load source;
  match datafile with
  | Array _ => raise TypeError
  | NpzFile members =>
      do t <- lift (npz_getitem members "time");
      do lt <- alloc t;
      do v <- lift (npz_getitem members "values");
      do lv <- alloc v;
      ret [lt; lv]
  end.

(** [self.send(data)] and [self.receive()], resolved along the MRO. *)
Definition send (self : Communicator) (d : data) : M unit :=
  match self with
  | SetToTransformer target => SetToTransformer_send target d
  | NPZWriter target => NPZWriter_send target d
  | _ => raise (AttributeError "send")
  end.

Definition receive (self : Communicator) : M (list loc) :=
  match self with
  | GetFromTransformer source => GetFromTransformer_receive source
  | NPZReader source => NPZReader_receive source
  | _ => raise (AttributeError "receive")
  end.

(** [Sender.__call__] and [Receiver.__call__] *)
Definition Sender_call (self : Communicator) (d : data) : M unit :=
  send self d.

Definition Receiver_call (self : Communicator) : M (list loc) :=
  receive self.

End IO.
Import IO.

(** ** [examples/tvb_nest/notebooks/cerebellum/scripts/sbi_script.py] *)

Module SBI.

(** The fields of the configuration object the modelled functions read.
    The two [printf] formats and the pre-split results path come from
    the configuration class, which is not among the sources. *)
Record Config : Type := mk_Config
  { N_SIM_BATCHES : Z;
    N_FIT_RUNS : Z;
    Gs : list Z;
    PRIORS_SAMPLES_PATH : string * string;
    BATCH_FILE_FORMAT : string -> nat -> string -> string;
    BATCH_FILE_FORMAT_G : string -> Z -> nat -> string -> string }.

(** [batch_filepath], called with [filepath] and [extension] given. *)
Definition batch_filepath (iB : nat) (config : Config) (iG : option Z)
    (filepath extension : string) : string :=
  match iG with
  | None => BATCH_FILE_FORMAT config filepath iB extension
  | Some g => BATCH_FILE_FORMAT_G config filepath g iB extension
  end.

Definition batch_priors_filepath (iB : nat) (config : Config) (iG : option Z)
    (filepath extension : string) : string :=
  batch_filepath iB config iG filepath extension.

(** The positions selected by the slice [start::step] of a sequence of
    length [n], for [0 <= start] and [0 < step]. *)
Definition slice_indices (n start step : nat) : list nat :=
  let start := Nat.min start n in
  map (fun k => start + k * step) (seq 0 ((n - start + step - 1) / step)).

Section Batches.

(** A tensor of samples is the sequence of its rows. *)
Context {A : Type}.

(** [s[start::step]] *)
Definition slice_from_step (s : list A) (start step : nat) : list A :=
  omap (fun i => s !! i) (slice_indices (length s) start step).

(** The files written by [torch.save], by path. *)
Record disk : Type := mk_disk
  { saved : gmap string (list A);
    writable : string -> bool }.

(** [torch.save(x, path)]: when the file cannot be opened for writing,
    the file writer of [torch] raises [RuntimeError]. *)
Definition torch_save (x : list A) (path : string) (d : disk)
    : result unit * disk :=
  if writable d path
  then (Ok tt, {| saved := <[path := x]> (saved d); writable := writable d |})
  else (Raise RuntimeError, d).

(** [sample_priors_for_sbi(config)[0]] draws from the priors. *)
Variable sample_priors_for_sbi : Config -> result (list A).

(** The body of the [for iB in range(config.N_SIM_BATCHES)] loop. *)
Fixpoint batches_loop (config : Config) (priors_samples : list A)
    (iG : option Z) (write_to_files : bool) (filepath extension : string)
    (iBs : list nat) (batch_samples : list (list A)) (d : disk)
    : result (list (list A)) * disk :=
  match iBs with
  | [] => (Ok batch_samples, d)
  | iB :: iBs' =>
      let batch :=
        slice_from_step priors_samples iB (Z.to_nat (N_SIM_BATCHES config)) in
      let batch_samples := batch_samples ++ [batch] in
      if write_to_files
      then match torch_save batch
                   (batch_priors_filepath iB config iG filepath extension) d with
           | (Ok _, d') =>
               batches_loop config priors_samples iG write_to_files
                 filepath extension iBs' batch_samples d'
           | (Raise e, d') => (Raise e, d')
           end
      else batches_loop config priors_samples iG write_to_files
             filepath extension iBs' batch_samples d
  end.

(** [priors_samples_per_batch] *)
Definition priors_samples_per_batch (priors_samples : option (list A))
    (iG : option Z) (config : Config) (write_to_files : bool) (d : disk)
    : result (list (list A)) * disk :=
  match (match priors_samples with
         | None => sample_priors_for_sbi config
         | Some s => Ok s
         end) with
  | Raise e => (Raise e, d)
  | Ok priors_samples =>
      let '(filepath, extension) := PRIORS_SAMPLES_PATH config in
      batches_loop config priors_samples iG write_to_files filepath extension
        (range (N_SIM_BATCHES config)) [] d
  end.

End Batches.

(** Pickled values: numbers and (nested) lists. *)
Inductive value : Type :=
| Num (x : Z)
| Lst (items : list value).

(** [val[0]] *)
Definition first (val : value) : result value :=
  match val with
  | Num _ => Raise TypeError
  | Lst [] => Raise IndexError
  | Lst (x :: _) => Ok x
  end.

(** A pickled [samples_fit] dictionary, and the [OrderedDict] of lists
    the runs are collected in; both in insertion order. *)
Definition samples_fit : Type := list (string * value).
Definition all_samples : Type := list (string * list value).

Definition contains_key {V} (key : string) (d : list (string * V)) : bool :=
  existsb (fun kv => String.eqb key (fst kv)) d.

(** [d[key].append(x)] for a key already present *)
Fixpoint append_at (key : string) (x : value) (d : all_samples) : all_samples :=
  match d with
  | [] => []
  | (k, l) :: d' =>
      if String.eqb key k then (k, l ++ [x]) :: d'
      else (k, l) :: append_at key x d'
  end.

(** [add_posterior_samples_iR]: [all_samples] is updated in place, so
    what was added before an exception stays added. *)
Fixpoint add_posterior_samples_iR (all : all_samples) (samples_iR : samples_fit)
    : result unit * all_samples :=
  match samples_iR with
  | [] => (Ok tt, all)
  | (key, val) :: rest =>
      if String.eqb key "G" then add_posterior_samples_iR all rest
      else
        let all := if contains_key key all then all else all ++ [(key, [])] in
        match first val with
        | Ok x => add_posterior_samples_iR (append_at key x all) rest
        | Raise e => (Raise e, all)
        end
  end.

(** What [warnings.warn] is called with: the fields of the message. *)
Record warning : Type := mk_warning
  { w_iG : Z;
    w_G : Z;
    w_iR : option Z;
    w_exn : exn }.

(** An entry of the dictionary built by [load_posterior_samples_all_Gs]:
    a loaded [samples_fit] (when [runs is False]) or the collection over
    the runs. *)
Inductive G_entry : Type :=
| Single (s : samples_fit)
| Runs (s : all_samples).

(** [d[key] = v] on an [OrderedDict] keyed by numbers *)
Fixpoint setitem_Z {V} (key : Z) (v : V) (d : list (Z * V)) : list (Z * V) :=
  match d with
  | [] => [(key, v)]
  | (k, v') :: d' =>
      if (key =? k)%Z then (k, v) :: d' else (k, v') :: setitem_Z key v d'
  end.

(** The [runs] argument of [load_posterior_samples_all_Gs]. *)
Inductive runs_arg : Type :=
| RunsNone
| RunsFalse
| RunsList (runs : list Z).

Section Load.

Variable config : Config.

(** [posterior_samples_filepath(config, iG, iR, label)]; its formats
    and folder come from the configuration. *)
Variable posterior_samples_filepath : option Z -> option Z -> string -> string.

(** The pickle files on disk: what unpickling each one gives. *)
Variable pickles : gmap string (result samples_fit).

(** The module-level binding of the name [G], if the star import of
    the [base] module (not among the sources) provides one; no
    statement of this module assigns it. *)
Variable global_G : option Z.

(** [load_posterior_samples] *)
Definition load_posterior_samples (iG iR : option Z) (label : string)
    : result samples_fit :=
  match pickles !! posterior_samples_filepath iG iR label with
  | None => Raise FileNotFoundError
  | Some r => r
  end.

(** The [for iR in runs] loop of [load_posterior_samples_all_runs]; the
    handler formats its message with [config.Gs[iG]], outside any
    [try]. *)
Fixpoint all_runs_loop (iG : Z) (label : string) (runs : list Z)
    (samples : all_samples) (log : list warning)
    : result all_samples * list warning :=
  match runs with
  | [] => (Ok samples, log)
  | iR :: runs' =>
      let '(outcome, samples) :=
        match load_posterior_samples (Some iG) (Some iR) label with
        | Ok samples_iR => add_posterior_samples_iR samples samples_iR
        | Raise e => (Raise e, samples)
        end in
      match outcome with
      | Ok _ => all_runs_loop iG label runs' samples log
      | Raise e =>
          match index (Gs config) iG with
          | Ok G =>
              all_runs_loop iG label runs' samples
                (log ++ [mk_warning iG G (Some iR) e])
          | Raise e' => (Raise e', log)
          end
      end
  end.

(** [load_posterior_samples_all_runs] *)
Definition load_posterior_samples_all_runs (iG : Z) (runs : option (list Z))
    (label : string) (samples : option all_samples) (log : list warning)
    : result all_samples * list warning :=
  let samples := default [] samples in
  let runs :=
    match runs with
    | None => map Z.of_nat (range (N_FIT_RUNS config))
    | Some runs => runs
    end in
  all_runs_loop iG label runs samples log.

(** The [for iG in iGs] loop of [load_posterior_samples_all_Gs].  The
    right-hand side of [samples[G] = ...] is evaluated first; the name
    [G] is looked up when the result is stored. *)
Fixpoint all_Gs_loop (iGs : list Z) (runs : runs_arg) (label : string)
    (samples : list (Z * G_entry)) (log : list warning)
    : result (list (Z * G_entry)) * list warning :=
  match iGs with
  | [] => (Ok samples, log)
  | iG :: iGs' =>
      let '(rhs, log) :=
        match runs with
        | RunsFalse =>
            (rbind (load_posterior_samples (Some iG) None label)
                   (fun s => Ok (Single s)), log)
        | RunsNone =>
            let '(r, log) :=
              load_posterior_samples_all_runs iG None label None log in
            (rbind r (fun s => Ok (Runs s)), log)
        | RunsList l =>
            let '(r, log) :=
              load_posterior_samples_all_runs iG (Some l) label None log in
            (rbind r (fun s => Ok (Runs s)), log)
        end in
      let stored :=
        rbind rhs (fun v =>
          match global_G with
          | Some G => Ok (setitem_Z G v samples)
          | None => Raise (NameError "G")
          end) in
      match stored with
      | Ok samples => all_Gs_loop iGs' runs label samples log
      | Raise e =>
          match index (Gs config) iG with
          | Ok G =>
              all_Gs_loop iGs' runs label samples
                (log ++ [mk_warning iG G None e])
          | Raise e' => (Raise e', log)
          end
      end
  end.

(** [load_posterior_samples_all_Gs] *)
Definition load_posterior_samples_all_Gs (iGs : option (list Z))
    (runs : runs_arg) (label : string) (log : list warning)
    : result (list (Z * G_entry)) * list warning :=
  let iGs :=
    match iGs with
    | None => map Z.of_nat (seq 0 (length (Gs config)))
    | Some iGs => iGs
    end in
  all_Gs_loop iGs runs label [] log.

End Load.

End SBI.
Import SBI.

(** ** [tvb_multiscale/tvb_annarchy/annarchy_models/devices.py] *)

Module Devices.

(** A population: its name and the ranks of its neurons. *)
Record Population : Type := mk_Population
  { name : string;
    ranks : list Z }.

(** What an ANNarchy [Monitor] holds at the moment it is read:
    [monitor.times()] (per variable, start and stop of the recording),
    [monitor.get()] (per variable, the samples by time step and neuron)
    and [monitor.get("spike")] (a dictionary from neuron rank to spike
    times).  Times and the integration step are floating-point numbers.
    No arithmetic is done on them here: each is given by a code, an
    integer that stands for one float, equal floats having equal codes
    and the codes being ordered as the floats are. *)
Record Monitor : Type := mk_Monitor
  { monitor_id : nat;
    m_times : list (string * (Z * Z));
    m_get : list (string * list (list Z));
    m_spike : list (Z * list Z) }.

(** [annarchy_instance.Global]: the registered populations and monitors
    and the integration step. *)
Record Network : Type := mk_Network
  { net_populations : list Population;
    net_monitors : list nat;
    net_dt : positive }.

#[global] Instance Population_eq_dec : EqDecision Population.
Proof. solve_decision. Defined.

(** *** NumPy and xarray operations used by the devices

    The labelled array [DataArray(..., dims=["Time", "Variable",
    "Population", "Neuron"])] is its four coordinate lists ([c_Time],
    [c_Variable], [c_Population], [c_Neuron]) and the values present at
    the coordinates; a position without a value is [NaN].  Samples are
    integers: nothing here depends on their arithmetic. *)

Definition coord : Type := Z * string * string * Z.

Record DataArray : Type := mk_DataArray
  { c_Time : list Z;
    c_Variable : list string;
    c_Population : list string;
    c_Neuron : list Z;
    values : gmap coord Z }.

(** [DataArray(np.empty((0, 0, 0, 0)), dims=[...])] *)
Definition empty_DataArray : DataArray := mk_DataArray [] [] [] [] ∅.

(** [d.size] and [len(d)] *)
Definition size (d : DataArray) : nat :=
  length (c_Time d) * length (c_Variable d) *
  length (c_Population d) * length (c_Neuron d).

Definition len (d : DataArray) : nat := length (c_Time d).

(** What [_compute_times] asks NumPy to compute from the floats it is
    given: [x + y], [np.arange(start, stop, step)], [np.union1d(a, b)]
    and [np.unique(a)], starting from the empty list.  The floating-point
    results are NumPy's and are not evaluated here: a computed number or
    sequence of times is the expression of the calls made. *)
Inductive np_float : Type :=
| Float (code : Z)
| Add (x y : np_float).

Inductive np_times : Type :=
| EmptyList
| Arange (start stop step : np_float)
| Union1d (a b : np_times)
| Unique (a : np_times).

(** [DataArray(np.array(data.values()), dims=["Time", "Variable",
    "Population", "Neuron"], coords={...})], where [data] is the
    dictionary [monitor.get()] returned.  In Python 3 [data.values()] is
    a view of the dictionary, not a sequence, and [np.array] makes of it
    an array without dimensions that holds the view as its one object.
    xarray compares the number of dimension names with the number of
    dimensions of the data before it looks at the coordinates, and
    raises [ValueError] ("different number of dimensions on data and
    dims: 0 vs 4").  So the call raises whatever the times, the samples
    and the population are. *)
Definition new_DataArray (times : np_times)
    (data : list (string * list (list Z))) (population : Population)
    : result DataArray :=
  Raise ValueError.

(** [combine_by_coords([a, b], fill_value=np.nan)], by what it is
    documented to build: the outer join of the coordinates (the times of
    both in ascending order, the other labels of [b] after those of [a]),
    with the values of both; two different values at one coordinate
    cannot be merged.  [_record] calls it on what the constructor above
    returns, and so never reaches it. *)
Fixpoint insert_time (x : Z) (l : list Z) : list Z :=
  match l with
  | [] => [x]
  | y :: l' =>
      if (x <? y)%Z then x :: l
      else if (x =? y)%Z then l
      else y :: insert_time x l'
  end.

Definition join_times (a b : list Z) : list Z :=
  fold_right insert_time [] (a ++ b).

Definition join {A} `{EqDecision A} (a b : list A) : list A :=
  a ++ list_difference b a.

Definition agree (a b : gmap coord Z) : bool :=
  bool_decide (map_Forall (fun k v => default v (a !! k) = v) b).

Definition combine_by_coords (a b : DataArray) : result DataArray :=
  if agree (values a) (values b)
  then Ok (mk_DataArray (join_times (c_Time a) (c_Time b))
             (join (c_Variable a) (c_Variable b))
             (join (c_Population a) (c_Population b))
             (join (c_Neuron a) (c_Neuron b))
             (values a ∪ values b))
  else Raise ValueError.

(** [d.stack(Var=tuple(d.dims))]: the coordinates of all positions, the
    last dimension varying fastest. *)
Definition stack (d : DataArray) : list coord :=
  flat_map (fun t =>
    flat_map (fun v =>
      flat_map (fun p =>
        map (fun n => (t, v, p, n)) (c_Neuron d))
        (c_Population d))
      (c_Variable d))
    (c_Time d).

Definition time_of (c : coord) : Z := c.1.1.1.
Definition variable_of (c : coord) : string := c.1.1.2.
Definition sender_of (c : coord) : string * Z := (c.1.2, c.2).

(** [data.loc[var].values]: the values at the positions of variable
    [var]. *)
Definition loc_values (d : DataArray) (data : list coord) (var : string)
    : list (option Z) :=
  map (fun c => values d !! c)
      (List.filter (fun c => String.eqb (variable_of c) var) data).

(** [x != 0] on a sample; [NaN != 0] holds. *)
Definition nonzero (x : option Z) : bool :=
  match x with
  | Some v => negb (v =? 0)%Z
  | None => true
  end.

(** [np.where(vals != 0)[0]] *)
Definition where_nonzero (vals : list (option Z)) : list nat :=
  map fst (List.filter (fun iv : nat * option Z => nonzero (snd iv))
                       (zip (seq 0 (length vals)) vals)).

(** *** The output devices *)

(** The values of the dictionary returned by [events]. *)
Inductive entry : Type :=
| Times (l : list Z)
| Senders (l : list (string * Z))
| Values (l : list (option Z)).

Definition Events : Type := list (string * entry).

Inductive Kind : Type :=
| ANNarchyMultimeter
| ANNarchyMonitor
| ANNarchyVoltmeter
| ANNarchySpikeDetector
| ANNarchySpikeMultimeter.

(** An instance: its class and its attributes ([data_] is the buffer
    [_data], [dt_] the cached step [_dt]). *)
Record Device : Type := mk_Device
  { kind : Kind;
    monitors : list (Monitor * Population);
    annarchy_instance : option Network;
    data_ : DataArray;
    monitors_inds_ : option (list nat);
    dt_ : option positive }.

Definition set_data (d : DataArray) (self : Device) : Device :=
  mk_Device (kind self) (monitors self) (annarchy_instance self) d
    (monitors_inds_ self) (dt_ self).

Definition set_dt (x : positive) (self : Device) : Device :=
  mk_Device (kind self) (monitors self) (annarchy_instance self) (data_ self)
    (monitors_inds_ self) (Some x).

(** [_get_monitors_inds] *)
Definition _get_monitors_inds (ms : list (Monitor * Population)) (net : Network)
    : result (list nat) :=
  mapM (fun mp : Monitor * Population =>
          list_index (monitor_id (fst mp)) (net_monitors net)) ms.

(** [ANNarchyOutputDevice.__init__], which every device class runs: the
    buffer [_data] of the new instance is an empty [DataArray]. *)
Definition init (k : Kind) (ms : list (Monitor * Population))
    (instance : option Network) : result Device :=
  match instance with
  | None => Ok (mk_Device k ms None empty_DataArray None None)
  | Some net =>
      rbind (_get_monitors_inds ms net) (fun inds =>
        Ok (mk_Device k ms (Some net) empty_DataArray (Some inds) None))
  end.

(** The property [dt], cached in [_dt] at its first use. *)
Definition dt (self : Device) : result positive * Device :=
  match dt_ self with
  | Some x => (Ok x, self)
  | None =>
      match annarchy_instance self with
      | None => (Raise (AttributeError "Global"), self)
      | Some net => (Ok (net_dt net), set_dt (net_dt net) self)
      end
  end.

(** [_compute_times]: for each variable,
    [np.union1d(output_times, np.arange(start, stop + self.dt, self.dt))],
    and [np.unique] of the result. *)
Fixpoint _compute_times_loop (times : list (string * (Z * Z)))
    (output_times : np_times) (self : Device) : result np_times * Device :=
  match times with
  | [] => (Ok output_times, self)
  | (_, (start, stop)) :: times' =>
      match dt self with
      | (Raise e, self) => (Raise e, self)
      | (Ok step, self) =>
          _compute_times_loop times'
            (Union1d output_times
               (Arange (Float start)
                       (Add (Float stop) (Float (Z.pos step)))
                       (Float (Z.pos step))))
            self
      end
  end.

Definition _compute_times (times : list (string * (Z * Z))) (self : Device)
    : result np_times * Device :=
  match _compute_times_loop times EmptyList self with
  | (Ok output_times, self) => (Ok (Unique output_times), self)
  | (Raise e, self) => (Raise e, self)
  end.

(** [ANNarchyOutputDevice._record]: for each monitor, the times are
    computed, a [DataArray] is built from what the monitor returns and, if
    that succeeds, merged into the buffer [_data] of the device. *)
Fixpoint _record_loop (ms : list (Monitor * Population)) (self : Device)
    : result unit * Device :=
  match ms with
  | [] => (Ok tt, self)
  | (monitor, population) :: ms' =>
      match _compute_times (m_times monitor) self with
      | (Raise e, self) => (Raise e, self)
      | (Ok times, self) =>
          match rbind (new_DataArray times (m_get monitor) population)
                      (combine_by_coords (data_ self)) with
          | Raise e => (Raise e, self)
          | Ok d => _record_loop ms' (set_data d self)
          end
      end
  end.

Definition ANNarchyOutputDevice_record (self : Device) : result unit * Device :=
  _record_loop (monitors self) self.

(** [ANNarchySpikeDetector._record].  The buffer is a [DataArray], which
    has neither [append] nor [update]; iterating the dictionary
    [monitor.get("spike")] yields its keys, and a rank cannot be
    unpacked into [neuron, spikes_times]. *)
Fixpoint ANNarchySpikeDetector_record_loop (i_m : nat)
    (ms : list (Monitor * Population)) (self : Device)
    : result unit * Device :=
  match ms with
  | [] => (Ok tt, self)
  | (monitor, _) :: ms' =>
      if (len (data_ self) <=? i_m)%nat
      then (Raise (AttributeError "append"), self)
      else
        match m_spike monitor with
        | [] => ANNarchySpikeDetector_record_loop (S i_m) ms' self
        | _ :: _ => (Raise TypeError, self)
        end
  end.

Definition ANNarchySpikeDetector_record (self : Device)
    : result unit * Device :=
  ANNarchySpikeDetector_record_loop 0 (monitors self) self.

(** [self._record()], resolved along the MRO: [ANNarchySpikeMultimeter]
    lists [ANNarchyMultimeter] before [ANNarchySpikeDetector], and both
    before their common base [ANNarchyOutputDevice]. *)
Definition _record (self : Device) : result unit * Device :=
  match kind self with
  | ANNarchySpikeDetector | ANNarchySpikeMultimeter =>
      ANNarchySpikeDetector_record self
  | ANNarchyMultimeter | ANNarchyMonitor | ANNarchyVoltmeter =>
      ANNarchyOutputDevice_record self
  end.

(** The dictionary built by [ANNarchyOutputDevice.events] from the
    buffer. *)
Definition ANNarchyOutputDevice_view (d : DataArray) : Events :=
  let data := stack d in
  fold_left
    (fun events var => setitem_str var (Values (loc_values d data var)) events)
    (map variable_of data)
    [("times", Times (map time_of data));
     ("senders", Senders (map sender_of data))].

(** [ANNarchyOutputDevice.events] *)
Definition ANNarchyOutputDevice_events (self : Device)
    : result Events * Device :=
  match _record self with
  | (Raise e, self) => (Raise e, self)
  | (Ok _, self) => (Ok (ANNarchyOutputDevice_view (data_ self)), self)
  end.

(** The dictionary built by [ANNarchySpikeMultimeter.events]. *)
Definition ANNarchySpikeMultimeter_view (d : DataArray) : result Events :=
  let data := stack d in
  let '(events, inds) :=
    fold_left
      (fun (st : Events * list nat) var =>
         let vals := loc_values d data var in
         let var_inds := where_nonzero vals in
         (setitem_str var (Values (List.filter nonzero vals)) (fst st),
          snd st ++ var_inds))
      (map variable_of data) ([], []) in
  rbind (mapM (getitem (map time_of data)) inds) (fun times =>
    let events := setitem_str "times" (Times times) events in
    rbind (mapM (getitem (map sender_of data)) inds) (fun senders =>
      Ok (setitem_str "senders" (Senders senders) events))).

(** [ANNarchySpikeMultimeter.events] *)
Definition ANNarchySpikeMultimeter_events (self : Device)
    : result Events * Device :=
  match _record self with
  | (Raise e, self) => (Raise e, self)
  | (Ok _, self) => (ANNarchySpikeMultimeter_view (data_ self), self)
  end.

Section SpikeDetectorEvents.

(** The attribute [data] read by [ANNarchySpikeDetector.events] is not
    defined in this file; it is whatever the base classes provide. *)
Variable data_attr : Device -> result (list (list (Z * list Z))).

(** The loop of [ANNarchySpikeDetector.events]: [tuple] takes one
    argument, so the first recorded neuron raises [TypeError]. *)
Fixpoint ANNarchySpikeDetector_events_loop (i_m : nat)
    (ms : list (Monitor * Population)) (self : Device) : result unit :=
  match ms with
  | [] => Ok tt
  | (_, population) :: ms' =>
      rbind (match annarchy_instance self with
             | None => Raise (AttributeError "Global")
             | Some net => list_index population (net_populations net)
             end) (fun population_ind =>
      rbind (data_attr self) (fun data =>
      rbind (getitem data i_m) (fun items =>
        match items with
        | [] => ANNarchySpikeDetector_events_loop (S i_m) ms' self
        | _ :: _ => Raise TypeError
        end)))
  end.

(** [ANNarchySpikeDetector.events] *)
Definition ANNarchySpikeDetector_events (self : Device)
    : result Events * Device :=
  match _record self with
  | (Raise e, self) => (Raise e, self)
  | (Ok _, self) =>
      (rbind (ANNarchySpikeDetector_events_loop 0 (monitors self) self)
             (fun _ => Ok [("times", Times []); ("senders", Senders [])]),
       self)
  end.

(** The property [events], resolved along the MRO. *)
Definition events (self : Device) : result Events * Device :=
  match kind self with
  | ANNarchySpikeDetector => ANNarchySpikeDetector_events self
  | ANNarchySpikeMultimeter => ANNarchySpikeMultimeter_events self
  | ANNarchyMultimeter | ANNarchyMonitor | ANNarchyVoltmeter =>
      ANNarchyOutputDevice_events self
  end.

End SpikeDetectorEvents.

(** [ANNarchyOutputDevice.number_of_events], inherited by every device
    class. *)
Definition number_of_events (self : Device) : result nat * Device :=
  match _record self with
  | (Raise e, self) => (Raise e, self)
  | (Ok _, self) => (Ok (size (data_ self)), self)
  end.

End Devices.

(** ** Statements about the communicators, and example worlds *)

Module IOStatements.

(** Writing the arrays at [l0] and [l1] to [target], then reading
    [source]. *)
Definition npz_round_trip (target source : string) (l0 l1 : loc)
    : M (list loc) :=
  run send (NPZWriter target) (Some [l0; l1]);
  receive (NPZReader source).

(** Sending the arrays at [l0] and [l1] to transformer [t], then
    receiving from [t]. *)
Definition memory_round_trip (t : loc) (l0 l1 : loc) : M (list loc) :=
  run send (SetToTransformer t) (Some [l0; l1]);
  receive (GetFromTransformer t).

(** The outcome [out] of a round trip started in world [w] is a pair of
    arrays with the contents of the arrays at [l0] and [l1]. *)
Definition reproduces (w : world) (l0 l1 : loc)
    (out : result (list loc) * world) : Prop :=
  exists r0 r1 a0 a1,
    fst out = Ok [r0; r1] /\
    arrays w !! l0 = Some a0 /\ arrays w !! l1 = Some a1 /\
    arrays (snd out) !! r0 = Some a0 /\ arrays (snd out) !! r1 = Some a1.

(** [NPZWriter(target).send] of the arrays at [l0], [l1] leaves at [path]
    one archive with compression [c] whose members are exactly [time] and
    [values], holding these arrays. *)
Definition persists (c : zip_compression) (path : string) (w : world)
    (target : string) (l0 l1 : loc) : Prop :=
  exists a0 a1 w',
    send (NPZWriter target) (Some [l0; l1]) w = (Ok tt, w') /\
    arrays w !! l0 = Some a0 /\ arrays w !! l1 = Some a1 /\
    files w' !! path = Some (ZipFile c [("time.npy", a0); ("values.npy", a1)]).

(** The outcome is an exception of kind [k]. *)
Definition fails_with {A} (k : error_kind) (out : result A * world) : Prop :=
  exists e, fst out = Raise e /\ kind_of e = k.

(** The member of an archive that [datafile[key]] reads: the one named
    [key], or else the one named [key.npy]. *)
Definition member (members : list (string * ndarray)) (key : string)
    : option ndarray :=
  match assoc key members with
  | Some a => Some a
  | None => assoc (key +:+ ".npy") members
  end.

(** [time = [0, 1, 2]], [values = [[1], [2], [3]]], a two-row array, and
    the four empty buffers of a transformer that has not run. *)
Definition time_ex : ndarray := mk_ndarray int64 [3%nat] [0; 1; 2]%Z.
Definition values_ex : ndarray := mk_ndarray int64 [3%nat; 1%nat] [1; 2; 3]%Z.
Definition short_ex : ndarray := mk_ndarray int64 [2%nat; 1%nat] [1; 2]%Z.
Definition empty_ex : ndarray := mk_ndarray float64 [0%nat] [].

Definition time_ref : loc := 1%positive.
Definition values_ref : loc := 2%positive.
Definition short_ref : loc := 3%positive.
Definition transformer_ref : loc := 5%positive.

Definition transformer_ex : Transformer :=
  mk_Transformer 10%positive 11%positive 12%positive 13%positive.

Definition world_ex : world :=
  mk_world
    (list_to_map [(time_ref, time_ex); (values_ref, values_ex);
                  (short_ref, short_ex);
                  (10%positive, empty_ex); (11%positive, empty_ex);
                  (12%positive, empty_ex); (13%positive, empty_ex)])
    {[ transformer_ref := transformer_ex ]}
    {[ "bad.npz" := OtherFile [1; 2; 3]%Z ]}
    (fun _ => true).

End IOStatements.
Import IOStatements.

(** ** Example inputs of the SBI scripts *)

Module SBIStatements.

Definition digit (n : nat) : string :=
  String (ascii_of_nat (48 + n)) EmptyString.

(** Two values of [G], one finished run for each, and the two pickled
    [samples_fit] dictionaries that [write_posterior_samples] leaves. *)

Definition config_ex : Config :=
  mk_Config 2 1 [10; 20]%Z ("priors_samples", ".pt")
    (fun filepath iB extension =>
       filepath +:+ "_" +:+ digit iB +:+ extension)
    (fun filepath iG iB extension =>
       filepath +:+ "_iG" +:+ digit (Z.to_nat iG) +:+ "_" +:+ digit iB
                +:+ extension).

Definition posterior_samples_filepath_ex (iG iR : option Z) (label : string)
    : string :=
  match iG, iR with
  | Some 0%Z, Some 0%Z => "samples_fit_iG00_iR00.pkl"
  | Some 1%Z, Some 0%Z => "samples_fit_iG01_iR00.pkl"
  | _, _ => "samples_fit.pkl"
  end.

Definition samples_fit_ex (G : Z) : samples_fit :=
  [("G", Num G); ("map", Lst [Lst [Num 1; Num 2]]);
   ("mean", Lst [Lst [Num 3]])].

Definition pickles_ex : gmap string (result samples_fit) :=
  list_to_map
    [("samples_fit_iG00_iR00.pkl", Ok (samples_fit_ex 10));
     ("samples_fit_iG01_iR00.pkl", Ok (samples_fit_ex 20))].

(** What the collection over the runs of one [G] is for these files. *)
Definition runs_ex : all_samples :=
  [("map", [Lst [Num 1; Num 2]]); ("mean", [Lst [Num 3]])].

End SBIStatements.
Import SBIStatements.

(** ** Statements about the output devices, and example devices *)

Module DeviceStatements.
Import Devices.

(** The classes that keep the [_record] of [ANNarchyOutputDevice]. *)
Definition continuous (k : Kind) : bool :=
  match k with
  | ANNarchyMultimeter | ANNarchyMonitor | ANNarchyVoltmeter => true
  | ANNarchySpikeDetector | ANNarchySpikeMultimeter => false
  end.

(** The step [dt] returns, from the cache or from the network. *)
Definition dt_value (self : Device) : option positive :=
  match dt_ self with
  | Some x => Some x
  | None => net_dt <$> annarchy_instance self
  end.

(** The device after [dt] has been read once. *)
Definition touch (self : Device) : Device := snd (dt self).

(** [_compute_times] as a function of the step. *)
Fixpoint times_loop (step : option positive) (times : list (string * (Z * Z)))
    (output_times : np_times) : result np_times :=
  match times with
  | [] => Ok output_times
  | (_, (start, stop)) :: times' =>
      match step with
      | None => Raise (AttributeError "Global")
      | Some x =>
          times_loop step times'
            (Union1d output_times
               (Arange (Float start) (Add (Float stop) (Float (Z.pos x)))
                       (Float (Z.pos x))))
      end
  end.

(** The exception [_record] raises at a monitor: that of [self.dt] when
    the times cannot be computed, that of the [DataArray] constructor
    otherwise. *)
Definition raised_at (step : option positive) (monitor : Monitor) : exn :=
  match times_loop step (m_times monitor) EmptyList with
  | Ok _ => ValueError
  | Raise e => e
  end.

(** The device after [_record] has computed the times of a monitor. *)
Definition after (monitor : Monitor) (self : Device) : Device :=
  match m_times monitor with
  | [] => self
  | _ :: _ => touch self
  end.

(** What [events] derives from the device once [_record] has run. *)
Definition derive (data_attr : Device -> result (list (list (Z * list Z))))
    (self : Device) : result Events :=
  match kind self with
  | ANNarchySpikeDetector =>
      rbind (ANNarchySpikeDetector_events_loop data_attr 0 (monitors self) self)
            (fun _ => Ok [("times", Times []); ("senders", Senders [])])
  | ANNarchySpikeMultimeter => ANNarchySpikeMultimeter_view (data_ self)
  | ANNarchyMultimeter | ANNarchyMonitor | ANNarchyVoltmeter =>
      Ok (ANNarchyOutputDevice_view (data_ self))
  end.

(** One population with one neuron, a network, and a monitor of the
    variable [r] at two moments: holding the sample of a first time, and
    holding the sample of a second. *)
Definition population_ex : Population := mk_Population "E" [0%Z].

Definition network_ex : Network := mk_Network [population_ex] [0%nat] 1.

Definition monitor_at_0 : Monitor :=
  mk_Monitor 0 [("r", (0, 0)%Z)] [("r", [[5%Z]])] [(0%Z, [])].

Definition monitor_at_1 : Monitor :=
  mk_Monitor 0 [("r", (1, 1)%Z)] [("r", [[7%Z]])] [(0%Z, [1%Z])].

Definition no_data (_ : Device) : result (list (list (Z * list Z))) :=
  Raise (AttributeError "data").

(** A multimeter as [__init__] leaves it, for either state of the
    monitor. *)
Definition multimeter_ex (m : Monitor) : Device :=
  mk_Device ANNarchyMultimeter [(m, population_ex)] (Some network_ex)
    empty_DataArray (Some [0%nat]) None.

(** A spike detector as [__init__] leaves it. *)
Definition spike_detector_ex : Device :=
  mk_Device ANNarchySpikeDetector [(monitor_at_1, population_ex)]
    (Some network_ex) empty_DataArray (Some [0%nat]) None.

End DeviceStatements.
Import Devices.
Import DeviceStatements.

(** ** Frames of the communicators *)

Module IOFrames.

(** [w'] is [w] with, at most, new arrays: the transformers, the files
    and every array of [w] are as they were. *)
Definition extends (w w' : world) : Prop :=
  transformers w' = transformers w /\
  files w' = files w /\
  can_open_w w' = can_open_w w /\
  forall l a, arrays w !! l = Some a -> arrays w' !! l = Some a.

(** [w'] is [w] with, at most, new arrays and new input buffers for the
    transformer [t]. *)
Definition updates_inputs_of (t : loc) (w w' : world) : Prop :=
  files w' = files w /\
  can_open_w w' = can_open_w w /\
  (forall l a, arrays w !! l = Some a -> arrays w' !! l = Some a) /\
  (forall t', t' <> t -> transformers w' !! t' = transformers w !! t') /\
  (forall tr, transformers w !! t = Some tr ->
     exists tr', transformers w' !! t = Some tr' /\
                 output_time tr' = output_time tr /\
                 output_buffer tr' = output_buffer tr) /\
  (transformers w !! t = None -> transformers w' !! t = None).

End IOFrames.
Import IOFrames.

(** ** The other members of [ANNarchyOutputDevice] *)

Module OutputDevice.

Definition set_monitors_inds (inds : list nat) (self : Device) : Device :=
  mk_Device (kind self) (monitors self) (annarchy_instance self) (data_ self)
    (Some inds) (dt_ self).

(** The property [monitors_inds], cached in [_monitors_inds] at its first
    use. *)
Definition monitors_inds (self : Device) : result (list nat) * Device :=
  match monitors_inds_ self with
  | Some inds => (Ok inds, self)
  | None =>
      match annarchy_instance self with
      | None => (Raise (AttributeError "Global"), self)
      | Some net =>
          match _get_monitors_inds (monitors self) net with
          | Ok inds => (Ok inds, set_monitors_inds inds self)
          | Raise e => (Raise e, self)
          end
      end
  end.

(** The property [populations]: [list(self.monitors.values())]; the
    branch [len(populations) == 0] evaluates [populations[0]] on the empty
    list, which raises [IndexError]. *)
Definition populations (self : Device) : result (list Population) :=
  match map snd (monitors self) with
  | [] => rbind (getitem (@nil Population) 0) (fun _ => Raise SystemError)
  | populations => Ok populations
  end.

(** The property [neurons] *)
Definition neurons (self : Device) : result (list Population) :=
  populations self.

(** [get_neurons]: a population is its name and its ranks, and a
    population of a monitor is never [None]. *)
Definition get_neurons (self : Device) : result (list Population) :=
  rbind (populations self) (fun pops =>
    Ok (fold_left
          (fun neurons pop =>
             if bool_decide (pop ∈ neurons) then neurons else neurons ++ [pop])
          pops [])).

(** The property [n_events] *)
Definition n_events (self : Device) : result nat * Device :=
  number_of_events self.

(** The property [reset]: [_record] flushes the monitors into the buffer,
    which is then replaced by an empty [DataArray]. *)
Definition reset (self : Device) : result unit * Device :=
  match _record self with
  | (Raise e, self) => (Raise e, self)
  | (Ok _, self) => (Ok tt, set_data empty_DataArray self)
  end.

End OutputDevice.
Import OutputDevice.

(** ** More of [sbi_script.py]: batch files, training, sample
    dictionaries *)

Module SBIWorkflow.

Section BatchFiles.

Context {A : Type}.

(** [torch.load(path)] *)
Definition torch_load (path : string) (d : @disk A) : result (list A) :=
  match saved d !! path with
  | Some x => Ok x
  | None => Raise FileNotFoundError
  end.

(** [load_priors_samples_per_batch] *)
Definition load_priors_samples_per_batch (iB : nat) (iG : option Z)
    (config : Config) (d : @disk A) : result (list A) :=
  let '(filepath, extension) := PRIORS_SAMPLES_PATH config in
  torch_load (batch_priors_filepath iB config iG filepath extension) d.

(** [load_priors_samples_per_batch_per_iG] *)
Definition load_priors_samples_per_batch_per_iG (iB : nat) (iG : Z)
    (config : Config) (d : @disk A) : result (list A) :=
  load_priors_samples_per_batch iB (Some iG) config d.

End BatchFiles.

(** [t[start:]] on a sequence, for any integer [start]: a negative
    [start] counts from the end, and [-0] is [0]. *)
Definition slice_from {X} (t : list X) (start : Z) : list X :=
  let n := Z.of_nat (length t) in
  let i := if (start <? 0)%Z then Z.max (start + n) 0 else Z.min start n in
  drop (Z.to_nat i) t.

(** [t[inds]]: the rows of a tensor at a list of positions. *)
Definition rows {X} (t : list X) (inds : list nat) : result (list X) :=
  mapM (getitem t) inds.

Section TrainTest.

(** Rows of the priors' samples and of the simulation results. *)
Context {A R : Type}.

(** [int(np.floor(config.TEST_SAMPLES_RATIO * n_samples))], a floating
    point computation, as a function of [n_samples]. *)
Variable n_test_samples_of : nat -> Z.

(** [random.sample(population, k)] *)
Variable random_sample : list nat -> Z -> result (list nat).

(** [get_train_test_samples]; [loaded] is what
    [load_priors_and_simulations_for_sbi(iG, config=config)] gives for
    the priors' samples and the simulation results. *)
Definition get_train_test_samples (loaded : result (list A * list R))
    (n_train_samples : option Z)
    : result (list A * list R * list A * list R) :=
  rbind loaded (fun '(priors_samples, sim_res) =>
    let n_samples := length sim_res in
    let n_test_samples := n_test_samples_of n_samples in
    let test_samples := slice_from priors_samples (- n_test_samples) in
    let test_res := slice_from sim_res (- n_test_samples) in
    let n_train_samples :=
      match n_train_samples with
      | None => (Z.of_nat n_samples - n_test_samples)%Z
      | Some n => n
      end in
    let all_inds := seq 0 n_samples in
    rbind (random_sample all_inds n_train_samples) (fun sampl_inds =>
    rbind (rows priors_samples sampl_inds) (fun train_samples =>
    rbind (rows sim_res sampl_inds) (fun train_res =>
      Ok (train_samples, train_res, test_samples, test_res))))).

End TrainTest.

Section Train.

(** Density estimators and posteriors of the [sbi] library. *)
Context {E P : Type}.

(** [SNPE(prior=priors)] followed by
    [inference.append_simulations(priors_samples, sim_res).train()]: the
    density estimator, or the exception one of the calls raises. *)
Variable train : result E.

(** [inference.build_posterior(density_estimator)]: the outcome of the
    call number [k] (from 0) made by [sbi_train]. *)
Variable build_posterior : E -> nat -> result P.

(** What leaves [sbi_train] as an exception: one raised by the training
    call, or [Exception(exception)], whose argument is the last exception
    caught (or the string ["None"]). *)
Inductive train_error : Type :=
| Propagated (e : exn)
| Exception (exception : option exn).

(** The [while keep_building < 0] loop, for [keep_building = - n]; each
    warning is recorded with the number its message gives. *)
Fixpoint build_loop (density_estimator : E) (n : nat) (calls : nat)
    (exception : option exn) (log : list (exn * Z))
    : option P * option exn * list (exn * Z) :=
  match n with
  | O => (None, exception, log)
  | S n' =>
      match build_posterior density_estimator calls with
      | Ok posterior => (Some posterior, exception, log)
      | Raise e =>
          build_loop density_estimator n' (S calls) (Some e)
            (log ++ [(e, (10 + - Z.of_nat n + 2)%Z)])
      end
  end.

(** [sbi_train] *)
Definition sbi_train : (P + train_error) * list (exn * Z) :=
  match train with
  | Raise e => (inr (Propagated e), [])
  | Ok density_estimator =>
      let '(posterior, exception, log) :=
        build_loop density_estimator 10 0 None [] in
      match posterior with
      | Some posterior => (inl posterior, log)
      | None => (inr (Exception exception), log)
      end
  end.

End Train.

(** The warnings of [k] failed attempts from call number [calls] on, with
    [n] iterations left at the first of them. *)
Definition warnings_of (e : nat -> exn) (n calls k : nat) : list (exn * Z) :=
  map (fun j => (e (calls + j), (12 - Z.of_nat n + Z.of_nat j)%Z)) (seq 0 k).

(** What the [samples_fit] dictionary of one run has to add at a key:
    [val[0]] of its value there; nothing at the key [G]. *)
Definition contribution (key : string) (samples_iR : samples_fit)
    : option value :=
  if String.eqb key "G" then None
  else match assoc key samples_iR with
       | Some val =>
           match first val with
           | Ok x => Some x
           | Raise _ => None
           end
       | None => None
       end.

(** A dictionary as [write_posterior_samples] pickles it: no key twice,
    and each value but that of [G] a non-empty list. *)
Definition well_formed (samples_iR : samples_fit) : Prop :=
  List.NoDup (map fst samples_iR) /\
  forall key val, In (key, val) samples_iR -> key <> "G" ->
    exists x, first val = Ok x.

(** *** The dictionaries of samples

    [safely_set_key_list_iR] and [safely_append_item_iR] update lists in
    place, and a list may be referenced from several places: a value is a
    reference to a list object, or something that is not a list. *)

Inductive obj : Type :=
| Atom (x : Z)
| ListRef (l : positive).

Abbreviation heap := (gmap positive (list obj)).

(** A new list object. *)
Definition new_list (items : list obj) (h : heap) : positive * heap :=
  let l := fresh (dom h) in (l, <[l := items]> h).

(** A dictionary with string keys, in insertion order. *)
Definition dict : Type := list (string * obj).

(** [d[key]] when it is a list: the list object and its items. *)
Definition getlist (d : dict) (key : string) (h : heap)
    : result (positive * list obj) :=
  match assoc key d with
  | None => Raise (KeyError key)
  | Some (Atom _) => Raise TypeError
  | Some (ListRef l) =>
      match h !! l with
      | Some items => Ok (l, items)
      | None => Raise SystemError
      end
  end.

(** The position of [l[i]] for an integer [i]. *)
Definition position (n : nat) (i : Z) : result nat :=
  let j := if (i <? 0)%Z then (i + Z.of_nat n)%Z else i in
  if (0 <=? j)%Z && (j <? Z.of_nat n)%Z then Ok (Z.to_nat j)
  else Raise IndexError.

(** [while len(d[key]) < iR + 1: d[key].append(defval)], for the list
    object [l] of [d[key]] and the [n] iterations the loop makes. *)
Fixpoint pad (n : nat) (l : positive) (defval : obj) (h : heap) : heap :=
  match n with
  | O => h
  | S n' => pad n' l defval (alter (fun items => items ++ [defval]) l h)
  end.

(** [safely_set_key_list_iR] *)
Definition safely_set_key_list_iR (d : dict) (iR : Z) (key : string)
    (defval : obj) (h : heap) : result (dict * Z) * heap :=
  let '(d, h) :=
    match assoc key d with
    | None =>
        let '(l, h) := new_list [] h in (setitem_str key (ListRef l) d, h)
    | Some (ListRef _) => (d, h)
    | Some (Atom x) =>
        let '(l, h) := new_list [Atom x] h in
        (setitem_str key (ListRef l) d, h)
    end in
  match getlist d key h with
  | Raise e => (Raise e, h)
  | Ok (l, items) =>
      let iR := if (iR =? -1)%Z then Z.of_nat (length items) else iR in
      let h := pad (Z.to_nat (iR + 1 - Z.of_nat (length items))) l defval h in
      match getlist d key h with
      | Raise e => (Raise e, h)
      | Ok (l, items) =>
          match position (length items) iR with
          | Raise e => (Raise e, h)
          | Ok i =>
              match items !! i with
              | Some (Atom x) =>
                  let '(l', h) := new_list [Atom x] h in
                  (Ok (d, iR), alter (fun items => <[i := ListRef l']> items) l h)
              | _ => (Ok (d, iR), h)
              end
          end
      end
  end.

(** [safely_append_item_iR]: the default value is the list object the
    literal [[]] creates when the call is made. *)
Definition safely_append_item_iR (d : dict) (iR : Z) (key : string)
    (val : obj) (h : heap) : result dict * heap :=
  let '(defval, h) := new_list [] h in
  match safely_set_key_list_iR d iR key (ListRef defval) h with
  | (Raise e, h) => (Raise e, h)
  | (Ok (d, iR), h) =>
      match getlist d key h with
      | Raise e => (Raise e, h)
      | Ok (l, items) =>
          match rbind (position (length items) iR) (getitem items) with
          | Raise e => (Raise e, h)
          | Ok (Atom _) => (Raise (AttributeError "append"), h)
          | Ok (ListRef l') =>
              (Ok d, alter (fun items => items ++ [val]) l' h)
          end
      end
  end.

End SBIWorkflow.
Import SBIWorkflow.

(* ===================================================================== *)
(** * Part II.  Properties                                                *)
(* ===================================================================== *)

(** ** Strings, references and the store *)

Lemma substring_all (t : string) : substring 0 (String.length t) t = t.
Proof. induction t as [|c t IH]; simpl; [reflexivity | now rewrite IH]. Qed.

Lemma substring_end (s t : string) :
  substring (String.length s) (String.length t) (s +:+ t) = t.
Proof.
  induction s as [|c s IH]; simpl; [apply substring_all | exact IH].
Qed.

Lemma length_append (s t : string) :
  String.length (s +:+ t) = (String.length s + String.length t)%nat.
Proof. induction s; simpl; [reflexivity | now rewrite IHs]. Qed.

Lemma endswith_append (s t : string) : endswith (s +:+ t) t = true.
Proof.
  unfold endswith. rewrite length_append.
  replace (String.length s + String.length t - String.length t)%nat
    with (String.length s) by lia.
  rewrite substring_end, String.eqb_refl, andb_true_r.
  apply Nat.leb_le. lia.
Qed.

(** The name [np.savez] writes to always ends in [.npz], and is the given
    name when that one does. *)
Lemma npz_name_endswith (file : string) : endswith (npz_name file) ".npz" = true.
Proof.
  unfold npz_name. destruct (endswith file ".npz") eqn:E; [exact E|].
  apply endswith_append.
Qed.

Lemma npz_name_id (file : string) :
  endswith file ".npz" = true -> npz_name file = file.
Proof. unfold npz_name. now intros ->. Qed.

Lemma fresh_not_in (m : gmap loc ndarray) : m !! fresh (dom m) = None.
Proof. apply not_elem_of_dom, is_fresh. Qed.

Lemma fresh_ne (m : gmap loc ndarray) (l : loc) (a : ndarray) :
  m !! l = Some a -> l <> fresh (dom m).
Proof. intros H ->. rewrite fresh_not_in in H. discriminate. Qed.

Lemma alloc_spec (a : ndarray) (w : world) :
  exists l, alloc a w = (Ok l, set_arrays (insert l a) w) /\ arrays w !! l = None.
Proof. eexists. split; [reflexivity | apply fresh_not_in]. Qed.

Lemma np_copy_spec (l : loc) (a : ndarray) (w : world) :
  arrays w !! l = Some a ->
  exists l', np_copy l w = (Ok l', set_arrays (insert l' a) w) /\
             arrays w !! l' = None.
Proof.
  intros H. unfold np_copy, bind, deref. rewrite H. apply alloc_spec.
Qed.

(** [setitem] changes the array it is applied to and no other. *)
Lemma setitem_other (l l' : loc) (i : nat) (v : Z) (w : world) :
  l <> l' -> arrays (snd (setitem l i v w)) !! l' = arrays w !! l'.
Proof.
  intros Hne. unfold setitem, bind, deref, raise.
  destruct (arrays w !! l) as [a|] eqn:E; simpl; [|reflexivity].
  destruct (i <? length (a_words a))%nat; simpl; [|reflexivity].
  now rewrite lookup_insert_ne.
Qed.

Lemma setitem_transformers (l : loc) (i : nat) (v : Z) (w : world) :
  transformers (snd (setitem l i v w)) = transformers w.
Proof.
  unfold setitem, bind, deref, raise.
  destruct (arrays w !! l) as [a|]; simpl; [|reflexivity].
  destruct (i <? length (a_words a))%nat; reflexivity.
Qed.

Lemma npz_getitem_time (a0 a1 : ndarray) :
  npz_getitem [("time.npy", a0); ("values.npy", a1)] "time" = read_array a0.
Proof. reflexivity. Qed.

Lemma npz_getitem_values (a0 a1 : ndarray) :
  npz_getitem [("time.npy", a0); ("values.npy", a1)] "values" = read_array a1.
Proof. reflexivity. Qed.

Lemma read_array_numeric (a : ndarray) : numeric a = true -> read_array a = Ok a.
Proof. unfold read_array. now intros ->. Qed.

(** What [NPZWriter.send] does when it is given at least two arrays. *)
Lemma NPZWriter_send_spec (w : world) (target : string) (l0 l1 : loc)
    (rest : list loc) (a0 a1 : ndarray) :
  arrays w !! l0 = Some a0 ->
  arrays w !! l1 = Some a1 ->
  NPZWriter_send target (Some (l0 :: l1 :: rest)) w =
    if can_open_w w (npz_name target)
    then (Ok tt,
          set_files (insert (npz_name target)
                       (ZipFile ZIP_STORED [("time.npy", a0); ("values.npy", a1)])) w)
    else (Raise OSError, w).
Proof.
  intros H0 H1.
  unfold NPZWriter_send, np_savez. simpl.
  unfold bind, subscript, lift, deref, ret; simpl.
  rewrite H0, H1. reflexivity.
Qed.

(** What [NPZReader.receive] does on an archive written by [np.savez]. *)
Lemma NPZReader_receive_spec (w : world) (source : string)
    (c : zip_compression) (a0 a1 : ndarray) :
  files w !! source = Some (ZipFile c [("time.npy", a0); ("values.npy", a1)]) ->
  numeric a0 = true -> numeric a1 = true ->
  exists lt lv w',
    NPZReader_receive source w = (Ok [lt; lv], w') /\
    arrays w !! lt = None /\ arrays w !! lv = None /\ lt <> lv /\
    arrays w' = <[lv := a1]> (<[lt := a0]> (arrays w)) /\
    transformers w' = transformers w /\ files w' = files w.
Proof.
  intros Hf N0 N1.
  unfold NPZReader_receive, bind, np_load, lift. rewrite Hf.
  rewrite npz_getitem_time, npz_getitem_values, !read_array_numeric by assumption.
  unfold alloc, ret; simpl.
  eexists _, _, _. split; [reflexivity|].
  pose proof (fresh_not_in (<[fresh (dom (arrays w)) := a0]> (arrays w))) as H.
  apply lookup_insert_None in H as [H Hne].
  repeat split; [apply fresh_not_in | exact H | exact Hne].
Qed.

(** ** The file transport: [NPZWriter] and [NPZReader] *)

(** C1, as stated, fails: sent to the path [data], the arrays are written to
    [data.npz], and reading [data] raises [FileNotFoundError]. *)
Lemma npz_round_trip_counterexample :
  ~ reproduces world_ex time_ref values_ref
    (npz_round_trip "data" "data" time_ref values_ref world_ex).
Proof.
  intros (r0 & r1 & a0 & a1 & H & _).
  vm_compute in H. discriminate.
Qed.

(** C1, amended: for every path that ends in [.npz] and can be written, and
    every pair of numeric arrays, [NPZWriter.send] to the path followed by
    [NPZReader.receive] from the same path returns two arrays [[time,
    values]] with exactly the dtype, shape and elements of the originals. *)
Theorem npz_round_trip_reproduces (w : world) (target : string) (l0 l1 : loc)
    (a0 a1 : ndarray) :
  arrays w !! l0 = Some a0 ->
  arrays w !! l1 = Some a1 ->
  numeric a0 = true ->
  numeric a1 = true ->
  endswith target ".npz" = true ->
  can_open_w w target = true ->
  reproduces w l0 l1 (npz_round_trip target target l0 l1 w).
Proof.
  intros H0 H1 N0 N1 Hext Hw.
  unfold npz_round_trip, bind, send.
  rewrite (NPZWriter_send_spec w target l0 l1 [] a0 a1 H0 H1).
  rewrite (npz_name_id _ Hext), Hw.
  set (w1 := set_files _ w).
  destruct (NPZReader_receive_spec w1 target ZIP_STORED a0 a1)
    as (lt & lv & w2 & Hr & _ & _ & Hne & Ha & _); try assumption.
  { unfold w1; simpl. apply lookup_insert_eq. }
  unfold receive. rewrite Hr. exists lt, lv, a0, a1; simpl.
  repeat split; try assumption.
  - rewrite Ha, lookup_insert_ne, lookup_insert_eq by congruence. reflexivity.
  - rewrite Ha, lookup_insert_eq. reflexivity.
Qed.

Lemma npz_round_trip_reproduces_witness :
  reproduces world_ex time_ref values_ref
    (npz_round_trip "data.npz" "data.npz" time_ref values_ref world_ex).
Proof.
  apply (npz_round_trip_reproduces world_ex "data.npz" time_ref values_ref
           time_ex values_ex);
    vm_compute; reflexivity.
Defined.

(** C8, as stated, fails twice: the archive written by [np.savez] is not
    compressed, and a target without the extension is not the path
    written. *)
Lemma npz_format_counterexample :
  ~ persists ZIP_DEFLATED "data.npz" world_ex "data.npz" time_ref values_ref /\
  (forall c, ~ persists c "data" world_ex "data" time_ref values_ref).
Proof.
  split.
  - intros (a0 & a1 & w' & H & _ & _ & Hf).
    vm_compute in H. injection H as <-. vm_compute in Hf. discriminate.
  - intros c (a0 & a1 & w' & H & _ & _ & Hf).
    vm_compute in H. injection H as <-. vm_compute in Hf. discriminate.
Qed.

(** C8, amended: every call of [NPZWriter.send(data)] with at least two
    arrays and a writable destination persists exactly two named arrays,
    [time] holding [data[0]] and [values] holding [data[1]], in a single
    uncompressed archive at the target path with [.npz] appended unless it
    already ends in it; no other file changes, and [NPZReader.receive]
    finds the two arrays under these names. *)
Theorem npz_format (w : world) (target : string) (l0 l1 : loc)
    (rest : list loc) (a0 a1 : ndarray) :
  arrays w !! l0 = Some a0 ->
  arrays w !! l1 = Some a1 ->
  can_open_w w (npz_name target) = true ->
  exists w' members,
    send (NPZWriter target) (Some (l0 :: l1 :: rest)) w = (Ok tt, w') /\
    members = [("time.npy", a0); ("values.npy", a1)] /\
    files w' !! npz_name target = Some (ZipFile ZIP_STORED members) /\
    (forall p, p <> npz_name target -> files w' !! p = files w !! p) /\
    endswith (npz_name target) ".npz" = true /\
    (endswith target ".npz" = true -> npz_name target = target) /\
    npz_getitem members "time" = read_array a0 /\
    npz_getitem members "values" = read_array a1.
Proof.
  intros H0 H1 Hw. unfold send.
  rewrite (NPZWriter_send_spec w target l0 l1 rest a0 a1 H0 H1), Hw.
  eexists _, _. split; [reflexivity|]. split; [reflexivity|]. simpl.
  split; [apply lookup_insert_eq|].
  split; [intros p Hp; now rewrite lookup_insert_ne|].
  split; [apply npz_name_endswith|].
  split; [apply npz_name_id|].
  split; reflexivity.
Qed.

Lemma npz_format_witness :
  exists w' members,
    send (NPZWriter "data") (Some [time_ref; values_ref; short_ref]) world_ex
      = (Ok tt, w') /\
    members = [("time.npy", time_ex); ("values.npy", values_ex)] /\
    files w' !! npz_name "data" = Some (ZipFile ZIP_STORED members) /\
    (forall p, p <> npz_name "data" -> files w' !! p = files world_ex !! p) /\
    endswith (npz_name "data") ".npz" = true /\
    (endswith "data" ".npz" = true -> npz_name "data" = "data") /\
    npz_getitem members "time" = read_array time_ex /\
    npz_getitem members "values" = read_array values_ex.
Proof.
  apply (npz_format world_ex "data" time_ref values_ref [short_ref]
           time_ex values_ex);
    vm_compute; reflexivity.
Defined.

(** ** The in-memory transport: [SetToTransformer] and [GetFromTransformer] *)

(** What [SetToTransformer.send] does when it is given at least two arrays:
    two new arrays are allocated and become the input buffers. *)
Lemma SetToTransformer_send_spec (w : world) (t : loc) (tr : Transformer)
    (l0 l1 : loc) (rest : list loc) (a0 a1 : ndarray) :
  transformers w !! t = Some tr ->
  arrays w !! l0 = Some a0 ->
  arrays w !! l1 = Some a1 ->
  exists c0 c1,
    SetToTransformer_send t (Some (l0 :: l1 :: rest)) w =
      (Ok tt,
       mk_world (<[c1 := a1]> (<[c0 := a0]> (arrays w)))
         (<[t := mk_Transformer c0 c1 (output_time tr) (output_buffer tr)]>
            (transformers w))
         (files w) (can_open_w w)) /\
    arrays w !! c0 = None /\ arrays w !! c1 = None /\ c0 <> c1.
Proof.
  intros Ht H0 H1.
  pose proof (fresh_not_in (arrays w)) as F0.
  set (c0 := fresh (dom (arrays w))) in *.
  pose proof (fresh_not_in (<[c0 := a0]> (arrays w))) as F1.
  set (c1 := fresh (dom (<[c0 := a0]> (arrays w)))) in *.
  apply lookup_insert_None in F1 as [F1 Hne].
  exists c0, c1. split; [|auto].
  unfold SetToTransformer_send, bind, subscript, lift, np_copy, bind, deref,
    alloc, set_input_time, set_input_buffer, bind, get_transformer; simpl.
  rewrite H0; simpl. rewrite Ht; simpl.
  fold c0. rewrite lookup_insert_ne by (intros ->; congruence).
  rewrite H1; simpl. rewrite lookup_insert_eq; simpl.
  fold c0 c1. unfold set_transformers, set_arrays; simpl.
  rewrite insert_insert_eq. reflexivity.
Qed.

(** What [GetFromTransformer.receive] does: two new arrays with the
    contents of the output buffers. *)
Lemma GetFromTransformer_receive_spec (w : world) (t : loc) (tr : Transformer)
    (o0 o1 : ndarray) :
  transformers w !! t = Some tr ->
  arrays w !! output_time tr = Some o0 ->
  arrays w !! output_buffer tr = Some o1 ->
  exists r0 r1,
    GetFromTransformer_receive t w =
      (Ok [r0; r1],
       mk_world (<[r1 := o1]> (<[r0 := o0]> (arrays w)))
         (transformers w) (files w) (can_open_w w)) /\
    arrays w !! r0 = None /\ arrays w !! r1 = None /\ r0 <> r1.
Proof.
  intros Ht H0 H1.
  pose proof (fresh_not_in (arrays w)) as F0.
  set (r0 := fresh (dom (arrays w))) in *.
  pose proof (fresh_not_in (<[r0 := o0]> (arrays w))) as F1.
  set (r1 := fresh (dom (<[r0 := o0]> (arrays w)))) in *.
  apply lookup_insert_None in F1 as [F1 Hne].
  exists r0, r1. split; [|auto].
  unfold GetFromTransformer_receive, bind, np_copy, bind, deref, alloc,
    get_transformer, ret; simpl.
  rewrite Ht; simpl. rewrite H0; simpl. rewrite Ht; simpl.
  fold r0. rewrite lookup_insert_ne by (intros E; rewrite E in F0; congruence).
  rewrite H1; simpl. reflexivity.
Qed.

(** C2, as stated, fails: [send] fills the input buffers of the transformer
    and [receive] copies its output buffers, so what comes back after a
    [send] alone is the (here still empty) output, not the pair sent. *)
Lemma memory_round_trip_counterexample :
  ~ reproduces world_ex time_ref values_ref
      (memory_round_trip transformer_ref time_ref values_ref world_ex).
Proof.
  intros (r0 & r1 & a0 & a1 & H & H0 & _ & H2 & _).
  vm_compute in H. injection H as <- <-.
  vm_compute in H0, H2. congruence.
Qed.

(** C2, amended: for every transformer [t] and pair of arrays,
    [SetToTransformer.send] stores in [t.input_time] and [t.input_buffer]
    two new arrays with the contents of the pair and leaves the output
    buffers alone; [GetFromTransformer.receive] returns two new arrays with
    the contents of [t.output_time] and [t.output_buffer], which is the pair
    sent exactly when the output buffers hold it.  No array is shared:
    writing into a received array changes no other array, and writing into
    an original after [send] changes neither what is stored nor, unless the
    original already was an output buffer of [t], what is received. *)
Theorem memory_transport (w : world) (t : loc) (tr : Transformer)
    (l0 l1 : loc) (a0 a1 o0 o1 : ndarray) :
  transformers w !! t = Some tr ->
  arrays w !! l0 = Some a0 ->
  arrays w !! l1 = Some a1 ->
  arrays w !! output_time tr = Some o0 ->
  arrays w !! output_buffer tr = Some o1 ->
  exists w1 tr1 r0 r1 w2,
    send (SetToTransformer t) (Some [l0; l1]) w = (Ok tt, w1) /\
    transformers w1 !! t = Some tr1 /\
    arrays w1 !! input_time tr1 = Some a0 /\
    arrays w1 !! input_buffer tr1 = Some a1 /\
    arrays w !! input_time tr1 = None /\
    arrays w !! input_buffer tr1 = None /\
    output_time tr1 = output_time tr /\
    output_buffer tr1 = output_buffer tr /\
    receive (GetFromTransformer t) w1 = (Ok [r0; r1], w2) /\
    arrays w2 !! r0 = Some o0 /\
    arrays w2 !! r1 = Some o1 /\
    arrays w1 !! r0 = None /\
    arrays w1 !! r1 = None /\
    (o0 = a0 -> o1 = a1 -> reproduces w l0 l1 (memory_round_trip t l0 l1 w)) /\
    (forall r i v l, r = r0 \/ r = r1 -> l <> r ->
       arrays (snd (setitem r i v w2)) !! l = arrays w2 !! l) /\
    (forall l i v, l = l0 \/ l = l1 ->
       let w1' := snd (setitem l i v w1) in
       transformers w1' !! t = Some tr1 /\
       arrays w1' !! input_time tr1 = Some a0 /\
       arrays w1' !! input_buffer tr1 = Some a1 /\
       (l <> output_time tr -> l <> output_buffer tr ->
        exists r0' r1' w2',
          receive (GetFromTransformer t) w1' = (Ok [r0'; r1'], w2') /\
          arrays w2' !! r0' = Some o0 /\ arrays w2' !! r1' = Some o1)).
Proof.
  intros Ht H0 H1 Ho0 Ho1.
  destruct (SetToTransformer_send_spec w t tr l0 l1 [] a0 a1 Ht H0 H1)
    as (c0 & c1 & Hs & F0 & F1 & Hc).
  set (tr1 := mk_Transformer c0 c1 (output_time tr) (output_buffer tr)) in *.
  set (w1 := mk_world _ _ _ _) in Hs.
  assert (Ht1 : transformers w1 !! t = Some tr1) by apply lookup_insert_eq.
  assert (Hin0 : arrays w1 !! c0 = Some a0).
  { unfold w1; simpl. now rewrite lookup_insert_ne, lookup_insert_eq. }
  assert (Hin1 : arrays w1 !! c1 = Some a1).
  { unfold w1; simpl. now rewrite lookup_insert_eq. }
  assert (Hold : forall l a, arrays w !! l = Some a -> arrays w1 !! l = Some a).
  { intros l a Hl. unfold w1; simpl.
    rewrite !lookup_insert_ne by (intros ->; congruence). exact Hl. }
  destruct (GetFromTransformer_receive_spec w1 t tr1 o0 o1 Ht1
              (Hold _ _ Ho0) (Hold _ _ Ho1)) as (r0 & r1 & Hr & G0 & G1 & Hrne).
  set (w2 := mk_world _ _ _ _) in Hr.
  assert (Hr0 : arrays w2 !! r0 = Some o0).
  { unfold w2; simpl. now rewrite lookup_insert_ne, lookup_insert_eq. }
  assert (Hr1 : arrays w2 !! r1 = Some o1).
  { unfold w2; simpl. now rewrite lookup_insert_eq. }
  exists w1, tr1, r0, r1, w2. unfold send, receive.
  repeat (split; [first [assumption | reflexivity]|]).
  split.
  { intros -> ->. exists r0, r1, a0, a1.
    unfold memory_round_trip, bind, send, receive. rewrite Hs, Hr. simpl. auto. }
  split.
  { intros r i v l _ Hne. apply setitem_other. congruence. }
  intros l i v Hl.
  assert (Hl' : exists a, arrays w !! l = Some a)
    by (destruct Hl as [-> | ->]; eauto).
  destruct Hl' as [a Ha].
  assert (Hlc0 : l <> c0) by (intros ->; congruence).
  assert (Hlc1 : l <> c1) by (intros ->; congruence).
  rewrite setitem_transformers, !setitem_other by assumption.
  repeat (split; [assumption|]).
  intros Hn0 Hn1.
  destruct (GetFromTransformer_receive_spec (snd (setitem l i v w1)) t tr1 o0 o1)
    as (r0' & r1' & Hr' & _ & _ & Hne').
  { now rewrite setitem_transformers. }
  { rewrite setitem_other by assumption. apply Hold, Ho0. }
  { rewrite setitem_other by assumption. apply Hold, Ho1. }
  eexists r0', r1', _. split; [exact Hr'|]. simpl.
  split; [now rewrite lookup_insert_ne, lookup_insert_eq | now rewrite lookup_insert_eq].
Qed.

Lemma memory_transport_witness :
  exists w1 tr1 r0 r1 w2,
    send (SetToTransformer transformer_ref) (Some [time_ref; values_ref]) world_ex
      = (Ok tt, w1) /\
    transformers w1 !! transformer_ref = Some tr1 /\
    arrays w1 !! input_time tr1 = Some time_ex /\
    arrays w1 !! input_buffer tr1 = Some values_ex /\
    receive (GetFromTransformer transformer_ref) w1 = (Ok [r0; r1], w2) /\
    arrays w2 !! r0 = Some empty_ex /\
    arrays w2 !! r1 = Some empty_ex.
Proof.
  destruct (memory_transport world_ex transformer_ref
              transformer_ex time_ref values_ref
              time_ex values_ex empty_ex empty_ex)
    as (w1 & tr1 & r0 & r1 & w2 & H); try (vm_compute; reflexivity).
  exists w1, tr1, r0, r1, w2. tauto.
Defined.

(** ** Error conditions of the communicators *)

Lemma send_None (self : Communicator) (w : world) :
  is_Sender self = true -> send self None w = (Raise TypeError, w).
Proof. destruct self; intros H; try discriminate; reflexivity. Qed.

Lemma NPZReader_receive_missing (source : string) (w : world) :
  files w !! source = None ->
  NPZReader_receive source w = (Raise FileNotFoundError, w).
Proof.
  intros H. unfold NPZReader_receive, bind, np_load. now rewrite H.
Qed.

Lemma npz_getitem_member (members : list (string * ndarray)) (key : string) :
  npz_getitem members key =
  match member members key with
  | Some a => read_array a
  | None => Raise (KeyError key)
  end.
Proof.
  unfold npz_getitem, member. destruct (assoc key members); reflexivity.
Qed.

(** What [NPZReader.receive] does with each file that is not an archive. *)
Lemma NPZReader_receive_not_archive (source : string) (w : world) :
  (files w !! source = Some (OtherFile []) ->
   NPZReader_receive source w = (Raise EOFError, w)) /\
  (forall b bytes,
     files w !! source = Some (OtherFile (b :: bytes)) ->
     NPZReader_receive source w =
       (Raise (if zip_magic (b :: bytes) then BadZipFile else ValueError), w)) /\
  (forall a,
     files w !! source = Some (NpyFile a) ->
     NPZReader_receive source w =
       (Raise (if numeric a then TypeError else ValueError), w)).
Proof.
  unfold NPZReader_receive, bind, np_load.
  split; [|split].
  - now intros ->.
  - intros b bytes ->. now destruct (zip_magic (b :: bytes)).
  - intros a ->. unfold read_array. now destruct (numeric a).
Qed.

(** What it does with an archive that lacks a member, or holds an object
    array where it looks. *)
Lemma NPZReader_receive_archive (source : string) (w : world)
    (c : zip_compression) (members : list (string * ndarray)) :
  files w !! source = Some (ZipFile c members) ->
  (member members "time" = None ->
   NPZReader_receive source w = (Raise (KeyError "time"), w)) /\
  (forall a, member members "time" = Some a -> numeric a = false ->
     NPZReader_receive source w = (Raise ValueError, w)) /\
  (forall t, member members "time" = Some t -> numeric t = true ->
     (member members "values" = None ->
      fst (NPZReader_receive source w) = Raise (KeyError "values")) /\
     (forall a, member members "values" = Some a -> numeric a = false ->
        fst (NPZReader_receive source w) = Raise ValueError)).
Proof.
  intros Hf. unfold NPZReader_receive, bind, np_load, lift. rewrite Hf.
  rewrite !npz_getitem_member. unfold read_array.
  split; [|split].
  - now intros ->.
  - now intros a -> ->.
  - intros t -> ->. simpl. split.
    + now intros ->.
    + now intros a -> ->.
Qed.

(** C3, as stated, fails: [send(None)] raises [TypeError], data whose
    arrays disagree in length ([time] has three entries, [values] two rows)
    is accepted, and reading a source that is not an archive raises
    [ValueError]; none of them is of the kind the claim gives. *)
Lemma error_kinds_counterexample :
  ~ fails_with ShapeMismatch
      (send (SetToTransformer transformer_ref) None world_ex) /\
  ~ fails_with ShapeMismatch
      (send (SetToTransformer transformer_ref) (Some [time_ref; short_ref])
         world_ex) /\
  ~ fails_with IOError (receive (NPZReader "bad.npz") world_ex).
Proof.
  repeat split; intros (e & H & K); vm_compute in H;
    try discriminate; injection H as <-; vm_compute in K; discriminate.
Qed.

(** C3, amended.  For every sender, [send(None)] fails with [TypeError]
    and changes nothing, and a sequence of at least two arrays is accepted
    whatever their shapes (no [ShapeMismatch] kind exists and no shape is
    checked).  [NPZReader.receive] fails with [FileNotFoundError] when
    the source is missing, [EOFError] when it is
    empty, [BadZipFile] when it starts with the zip magic and is no
    archive, [ValueError] on any other content that is neither an archive
    nor a [.npy] file, and on a [.npy] file [TypeError] (or [ValueError]
    if it holds an object array); on an archive of [.npy] members it
    fails with [KeyError] when [time], or else [values], is not a member
    and with [ValueError] when that member is an object array.  Of these
    exceptions only [FileNotFoundError] is of the [IOError] kind.  In each
    case the exception is the outcome of the call, also through
    [__call__]. *)
Theorem error_kinds (self : Communicator) (w : world) :
  (is_Sender self = true -> send self None w = (Raise TypeError, w)) /\
  (forall l0 l1 rest a0 a1,
     is_Sender self = true ->
     arrays w !! l0 = Some a0 ->
     arrays w !! l1 = Some a1 ->
     (forall t, self = SetToTransformer t -> is_Some (transformers w !! t)) ->
     (forall p, self = NPZWriter p -> can_open_w w (npz_name p) = true) ->
     fst (send self (Some (l0 :: l1 :: rest)) w) = Ok tt) /\
  (forall source,
     self = NPZReader source ->
     (files w !! source = None ->
      receive self w = (Raise FileNotFoundError, w)) /\
     (files w !! source = Some (OtherFile []) ->
      receive self w = (Raise EOFError, w)) /\
     (forall b bytes,
        files w !! source = Some (OtherFile (b :: bytes)) ->
        receive self w =
          (Raise (if zip_magic (b :: bytes) then BadZipFile else ValueError),
           w)) /\
     (forall a,
        files w !! source = Some (NpyFile a) ->
        receive self w =
          (Raise (if numeric a then TypeError else ValueError), w)) /\
     (forall c members,
        files w !! source = Some (ZipFile c members) ->
        (member members "time" = None ->
         receive self w = (Raise (KeyError "time"), w)) /\
        (forall a, member members "time" = Some a -> numeric a = false ->
           receive self w = (Raise ValueError, w)) /\
        (forall t, member members "time" = Some t -> numeric t = true ->
           (member members "values" = None ->
            fst (receive self w) = Raise (KeyError "values")) /\
           (forall a, member members "values" = Some a ->
              numeric a = false ->
              fst (receive self w) = Raise ValueError)))) /\
  (kind_of FileNotFoundError = IOError /\
   Forall (fun e => kind_of e = Unclassified)
     [TypeError; EOFError; BadZipFile; ValueError;
      KeyError "time"; KeyError "values"]) /\
  (forall d, Sender_call self d w = send self d w) /\
  Receiver_call self w = receive self w.
Proof.
  split; [now apply send_None|].
  split.
  { intros l0 l1 rest a0 a1 Hs H0 H1 Ht Hp.
    destruct self as [t | t | p | p]; try discriminate; unfold send.
    - destruct (Ht t eq_refl) as [tr Htr].
      destruct (SetToTransformer_send_spec w t tr l0 l1 rest a0 a1 Htr H0 H1)
        as (c0 & c1 & -> & _). reflexivity.
    - rewrite (NPZWriter_send_spec w p l0 l1 rest a0 a1 H0 H1), (Hp p eq_refl).
      reflexivity. }
  split.
  { intros source ->. unfold receive.
    destruct (NPZReader_receive_not_archive source w) as (H1 & H2 & H3).
    split; [apply NPZReader_receive_missing|].
    split; [exact H1|]. split; [exact H2|]. split; [exact H3|].
    intros c members Hf. exact (NPZReader_receive_archive source w c members Hf). }
  split; [split; [reflexivity | repeat constructor]|].
  split; reflexivity.
Qed.

Lemma error_kinds_witness :
  send (SetToTransformer transformer_ref) None world_ex
    = (Raise TypeError, world_ex) /\
  fst (send (SetToTransformer transformer_ref) (Some [time_ref; short_ref])
         world_ex) = Ok tt /\
  receive (NPZReader "data.npz") world_ex = (Raise FileNotFoundError, world_ex) /\
  receive (NPZReader "bad.npz") world_ex = (Raise ValueError, world_ex).
Proof.
  pose proof (error_kinds (SetToTransformer transformer_ref) world_ex)
    as (H1 & H2 & _).
  pose proof (error_kinds (NPZReader "data.npz") world_ex) as (_ & _ & H3 & _).
  pose proof (error_kinds (NPZReader "bad.npz") world_ex) as (_ & _ & H4 & _).
  split; [apply H1; reflexivity|].
  split.
  { apply (H2 time_ref short_ref [] time_ex short_ex);
      try (vm_compute; reflexivity).
    intros t [= <-]. vm_compute. eauto. }
  split; [apply (H3 "data.npz"); vm_compute; reflexivity|].
  destruct (H4 "bad.npz" eq_refl) as (_ & _ & H5 & _).
  apply (H5 1%Z [2; 3]%Z). vm_compute. reflexivity.
Defined.

(** ** The endpoint of a communicator *)

(** Each instance has exactly one of the two endpoint attributes. *)
Lemma one_endpoint (self : Communicator) :
  if is_Sender self
  then is_Ok (getattr self "target") = true /\
       getattr self "source" = Raise (AttributeError "source")
  else is_Ok (getattr self "source") = true /\
       getattr self "target" = Raise (AttributeError "target").
Proof. destruct self; split; reflexivity. Qed.

(** C4: [print_str] reads the endpoint the instance does not have.  On
    every sender [Sender.print_str] passes [True], for which
    [Communicator.print_str] reads [self.source]; on every receiver
    [Receiver.print_str] passes [False], for which it reads [self.target];
    both end in [AttributeError]. *)
Theorem print_str_reads_missing_endpoint (str_Transformer : loc -> string)
    (self : Communicator) :
  print_str str_Transformer self =
    Raise (AttributeError (if is_Sender self then "source" else "target")).
Proof. destruct self; reflexivity. Qed.

(** ** Batches of prior samples *)

Section BatchesFacts.

Context {A : Type}.




End BatchesFacts.

(** The positions of the slice [iB::N], for [iB < N], are the positions
    below [n] congruent to [iB]. *)
Lemma In_slice_indices (n iB N i : nat) :
  iB < N ->
  In i (slice_indices n iB N) <-> i < n /\ i mod N = iB.
Proof.
  intros HN. unfold slice_indices. rewrite in_map_iff. split.
  - intros (k & <- & Hk). apply in_seq in Hk as [_ Hk]. simpl in Hk.
    assert (Hc : (k + 1) * N <= n - iB `min` n + N - 1).
    { transitivity (N * ((n - iB `min` n + N - 1) / N));
        [|apply Nat.Div0.mul_div_le]. nia. }
    destruct (Nat.min_spec iB n) as [[Hlt ->] | [Hge ->]]; [|nia].
    split; [nia|].
    rewrite Nat.Div0.mod_add. apply Nat.mod_small. exact HN.
  - intros [Hi Hm]. exists (i / N).
    assert (E : i = N * (i / N) + iB) by (rewrite <- Hm; apply Nat.div_mod_eq).
    assert (Hmin : iB `min` n = iB) by (apply Nat.min_l; lia).
    rewrite Hmin. split; [lia|].
    apply in_seq. split; [lia|]. simpl.
    apply Nat.lt_le_trans with (S (i / N)); [lia|].
    apply Nat.div_le_lower_bound; [lia | nia].
Qed.





(** The loop of [priors_samples_per_batch] appends one slice per index, as
    long as the files (if any are written) can be written. *)
Lemma batches_loop_spec {A} (config : Config) (s : list A) (iG : option Z)
    (w : bool) (filepath extension : string) (iBs : list nat)
    (acc : list (list A)) (d : disk) :
  (w = true -> forall iB, In iB iBs ->
     writable d (batch_priors_filepath iB config iG filepath extension) = true) ->
  exists d',
    batches_loop config s iG w filepath extension iBs acc d =
      (Ok (acc ++ map (fun iB => slice_from_step s iB
                                   (Z.to_nat (N_SIM_BATCHES config))) iBs), d') /\
    writable d' = writable d.
Proof.
  revert acc d. induction iBs as [|iB iBs IH]; intros acc d Hw; simpl.
  - exists d. now rewrite app_nil_r.
  - destruct w.
    + unfold torch_save. rewrite (Hw eq_refl iB) by now left.
      edestruct IH as (d' & -> & Hd').
      { intros _ iB' H'. simpl. apply Hw; [reflexivity | now right]. }
      exists d'. split; [now rewrite <- app_assoc | exact Hd'].
    + edestruct IH as (d' & -> & Hd'); [discriminate|].
      exists d'. split; [now rewrite <- app_assoc | exact Hd'].
Qed.



(** ** Loading the posterior samples *)

Section LoadFacts.

Variable config : Config.
Variable posterior_samples_filepath : option Z -> option Z -> string -> string.
Variable pickles : gmap string (result samples_fit).

(** A run whose file fails to load is skipped with a warning, as long as
    [iG] indexes [config.Gs]. *)
Lemma all_runs_loop_failed_load (iG G iR : Z) (label : string) (runs : list Z)
    (samples : all_samples) (log : list warning) (e : exn) :
  load_posterior_samples posterior_samples_filepath pickles
    (Some iG) (Some iR) label = Raise e ->
  index (Gs config) iG = Ok G ->
  all_runs_loop config posterior_samples_filepath pickles iG label
    (iR :: runs) samples log =
  all_runs_loop config posterior_samples_filepath pickles iG label
    runs samples (log ++ [mk_warning iG G (Some iR) e]).
Proof. intros Hl Hg. simpl. now rewrite Hl, Hg. Qed.

(** With such an [iG], no exception leaves
    [load_posterior_samples_all_runs]. *)
Lemma all_runs_loop_returns (iG G : Z) (label : string) (runs : list Z)
    (samples : all_samples) (log : list warning) :
  index (Gs config) iG = Ok G ->
  exists samples' log',
    all_runs_loop config posterior_samples_filepath pickles iG label
      runs samples log = (Ok samples', log').
Proof.
  intros Hg. revert samples log.
  induction runs as [|iR runs IH]; intros samples log; simpl; [eauto|].
  destruct (load_posterior_samples _ _ _ _ _) as [samples_iR|e].
  - destruct (add_posterior_samples_iR samples samples_iR) as [[[]|e] samples'];
      [apply IH | rewrite Hg; apply IH].
  - rewrite Hg. apply IH.
Qed.

End LoadFacts.

(** The handler itself raises when [iG] does not index [config.Gs]: the
    [IndexError] of [config.Gs[iG]] leaves the function. *)
Lemma all_runs_handler_raises :
  load_posterior_samples_all_runs config_ex posterior_samples_filepath_ex
    pickles_ex 5 (Some [0%Z]) "" None [] = (Raise IndexError, []).
Proof. reflexivity. Qed.

(** C9: with both files present and loading, the two values of [G] and one
    run each, [load_posterior_samples_all_Gs] does not return the samples
    of the two values of [G].  It stores each collection under the name
    [G], which the function never binds: without a module-level [G] every
    store raises [NameError], which the handler reports as a failed load,
    and the result is empty; with one, every store goes to that one key. *)
Theorem all_Gs_drops_loaded_samples (global_G : option Z) :
  load_posterior_samples_all_Gs config_ex posterior_samples_filepath_ex
    pickles_ex global_G (Some [0; 1]%Z) (RunsList [0%Z]) "" [] =
  match global_G with
  | None =>
      (Ok [],
       [mk_warning 0 10 None (NameError "G");
        mk_warning 1 20 None (NameError "G")])
  | Some G => (Ok [(G, Runs runs_ex)], [])
  end.
Proof.
  destruct global_G as [G|]; [|reflexivity].
  assert (H0 : forall log,
    load_posterior_samples_all_runs config_ex posterior_samples_filepath_ex
      pickles_ex 0 (Some [0%Z]) "" None log = (Ok runs_ex, log))
    by (intros log; vm_compute; reflexivity).
  assert (H1 : forall log,
    load_posterior_samples_all_runs config_ex posterior_samples_filepath_ex
      pickles_ex 1 (Some [0%Z]) "" None log = (Ok runs_ex, log))
    by (intros log; vm_compute; reflexivity).
  unfold load_posterior_samples_all_Gs. cbn [all_Gs_loop].
  rewrite H0. cbn [rbind setitem_Z]. rewrite H1. cbn [rbind setitem_Z].
  now rewrite Z.eqb_refl.
Qed.

(** ** Reading a device *)

Lemma dt_spec (self : Device) :
  dt self =
    (match dt_value self with
     | Some x => Ok x
     | None => Raise (AttributeError "Global")
     end, touch self).
Proof.
  unfold touch, dt, dt_value. destruct (dt_ self); [reflexivity|].
  destruct (annarchy_instance self); reflexivity.
Qed.

Lemma touch_props (self : Device) :
  kind (touch self) = kind self /\
  monitors (touch self) = monitors self /\
  annarchy_instance (touch self) = annarchy_instance self /\
  data_ (touch self) = data_ self /\
  dt_value (touch self) = dt_value self /\
  touch (touch self) = touch self.
Proof.
  unfold touch, dt, dt_value. destruct self as [k ms [net|] d inds [x|]];
    repeat split.
Qed.

Lemma touch_set_data (d : DataArray) (self : Device) :
  touch (set_data d self) = set_data d (touch self).
Proof.
  unfold touch, dt. destruct self as [k ms [net|] d0 inds [x|]]; reflexivity.
Qed.

Lemma set_data_id (self : Device) : set_data (data_ self) self = self.
Proof. now destruct self. Qed.

Lemma after_props (m : Monitor) (self : Device) :
  kind (after m self) = kind self /\
  monitors (after m self) = monitors self /\
  annarchy_instance (after m self) = annarchy_instance self /\
  data_ (after m self) = data_ self /\
  dt_value (after m self) = dt_value self /\
  after m (after m self) = after m self /\
  (touch self = self -> after m self = self) /\
  (m_times m <> [] -> touch (after m self) = after m self).
Proof.
  unfold after. destruct (m_times m).
  - repeat split; congruence.
  - destruct (touch_props self) as (H1 & H2 & H3 & H4 & H5 & H6).
    repeat split; auto.
Qed.

Lemma compute_times_loop_spec (times : list (string * (Z * Z)))
    (output_times : np_times) (self : Device) :
  _compute_times_loop times output_times self =
    (times_loop (dt_value self) times output_times,
     match times with [] => self | _ :: _ => touch self end).
Proof.
  revert output_times self.
  induction times as [|[v [start stop]] times IH]; intros out self;
    [reflexivity|].
  simpl. rewrite dt_spec.
  destruct (touch_props self) as (_ & _ & _ & _ & Hv & Ht).
  destruct (dt_value self) as [x|] eqn:E; [|reflexivity].
  rewrite IH, Hv, Ht. now destruct times.
Qed.

(** With a step, the times are computed; without one, they are computed
    only when there is no recording period to compute them from. *)
Lemma times_loop_outcome (step : option positive)
    (times : list (string * (Z * Z))) :
  forall out,
    match step, times with
    | None, _ :: _ => times_loop step times out = Raise (AttributeError "Global")
    | _, _ => exists r, times_loop step times out = Ok r
    end.
Proof.
  induction times as [|[v [start stop]] times IH]; intros out.
  - destruct step; simpl; eauto.
  - destruct step as [x|]; [|reflexivity]. simpl.
    specialize (IH (Union1d out
                      (Arange (Float start) (Add (Float stop) (Float (Z.pos x)))
                              (Float (Z.pos x))))).
    destruct times; exact IH.
Qed.

(** The loop of [_record] does not get past its first monitor: the
    [DataArray] constructor raises, unless [self.dt] did before. *)
Lemma record_loop_step (m : Monitor) (pop : Population)
    (ms : list (Monitor * Population)) (self : Device) :
  _record_loop ((m, pop) :: ms) self =
    (Raise (raised_at (dt_value self) m), after m self).
Proof.
  simpl. unfold _compute_times. rewrite compute_times_loop_spec.
  unfold raised_at. fold (after m self).
  destruct (times_loop (dt_value self) (m_times m) EmptyList); reflexivity.
Qed.

Lemma raised_at_ValueError (x : positive) (m : Monitor) :
  raised_at (Some x) m = ValueError.
Proof.
  unfold raised_at.
  pose proof (times_loop_outcome (Some x) (m_times m) EmptyList) as H.
  simpl in H. destruct H as [r ->]. reflexivity.
Qed.

Lemma rbind_Ok {A B} (r : result A) (f : A -> result B) (b : B) :
  rbind r f = Ok b -> exists a, r = Ok a /\ f a = Ok b.
Proof. destruct r; simpl; [eauto | discriminate]. Qed.

Lemma ANNarchySpikeDetector_record_loop_state (i_m : nat)
    (ms : list (Monitor * Population)) (self : Device) :
  snd (ANNarchySpikeDetector_record_loop i_m ms self) = self.
Proof.
  revert i_m. induction ms as [|[m pop] ms IH]; intros i_m; simpl;
    [reflexivity|].
  destruct (len (data_ self) <=? i_m)%nat; [reflexivity|].
  destruct (m_spike m); [apply IH | reflexivity].
Qed.

(** [_record] never changes the buffer: all it can change of a device is
    the cached step.  Run again in the state it left, it has the same
    outcome and leaves the same state. *)
Lemma record_props (self : Device) :
  kind (snd (_record self)) = kind self /\
  monitors (snd (_record self)) = monitors self /\
  annarchy_instance (snd (_record self)) = annarchy_instance self /\
  data_ (snd (_record self)) = data_ self /\
  dt_value (snd (_record self)) = dt_value self /\
  _record (snd (_record self)) = _record self.
Proof.
  unfold _record.
  destruct (kind self) eqn:Ek;
    try (unfold ANNarchySpikeDetector_record;
         rewrite !ANNarchySpikeDetector_record_loop_state, ?Ek;
         repeat split);
    unfold ANNarchyOutputDevice_record;
    (destruct (monitors self) as [|[m pop] ms] eqn:Em;
     [simpl; rewrite Ek, Em; repeat split|]);
    rewrite record_loop_step; simpl;
    destruct (after_props m self) as (K1 & K2 & K3 & K4 & K5 & K6 & _);
    rewrite K1, K2, Ek, Em, record_loop_step, K5, K6; repeat split; auto.
Qed.

(** On a multimeter, monitor or voltmeter with a monitor, [_record]
    raises: [ValueError] from the [DataArray] constructor whenever the
    step is known. *)
Lemma continuous_record_raises (self : Device) :
  continuous (kind self) = true ->
  monitors self <> [] ->
  exists e,
    fst (_record self) = Raise e /\
    (is_Some (annarchy_instance self) -> e = ValueError).
Proof.
  intros Hc Hm. unfold _record, ANNarchyOutputDevice_record.
  destruct (monitors self) as [|[m pop] ms]; [congruence|].
  exists (raised_at (dt_value self) m). split.
  - destruct (kind self); try discriminate; now rewrite record_loop_step.
  - intros [net Hnet]. unfold dt_value. rewrite Hnet.
    destruct (dt_ self); apply raised_at_ValueError.
Qed.

(** The three [events] properties and [number_of_events] run [_record]
    and then look at the device only. *)
Lemma events_unfold (data_attr : Device -> result (list (list (Z * list Z))))
    (self : Device) :
  events data_attr self =
    (rbind (fst (_record self)) (fun _ => derive data_attr (snd (_record self))),
     snd (_record self)).
Proof.
  pose proof (record_props self) as (Hk & _).
  unfold events, derive, ANNarchyOutputDevice_events,
    ANNarchySpikeDetector_events, ANNarchySpikeMultimeter_events.
  rewrite Hk.
  destruct (kind self), (_record self) as [[[]|e] F]; reflexivity.
Qed.

Lemma number_of_events_unfold (self : Device) :
  number_of_events self =
    (rbind (fst (_record self))
           (fun _ => Ok (size (data_ (snd (_record self))))),
     snd (_record self)).
Proof.
  unfold number_of_events. now destruct (_record self) as [[[]|e] F].
Qed.

(** C5: reading [events] on a multimeter, monitor or voltmeter that has a
    monitor does not return at all.  Every read raises, [ValueError]
    whenever the device has its network: [_record] builds its
    [DataArray] from [np.array(data.values())], an array without
    dimensions, under four dimension names.  A second read raises the
    same, and no read puts anything into the buffer [_data]: nothing is
    aggregated from the recorders and no result is returned. *)
Theorem continuous_events_raise
    (data_attr : Device -> result (list (list (Z * list Z)))) (self : Device) :
  continuous (kind self) = true ->
  monitors self <> [] ->
  exists e F,
    events data_attr self = (Raise e, F) /\
    events data_attr F = (Raise e, F) /\
    data_ F = data_ self /\
    (is_Some (annarchy_instance self) -> e = ValueError).
Proof.
  intros Hc Hm.
  destruct (continuous_record_raises self Hc Hm) as (e & He & Hv).
  destruct (record_props self) as (_ & _ & _ & Hd & _ & Hr).
  exists e, (snd (_record self)).
  rewrite !events_unfold, Hr, He. simpl. auto.
Qed.

Lemma continuous_events_raise_witness :
  fst (events no_data (multimeter_ex monitor_at_0)) = Raise ValueError /\
  fst (events no_data (snd (events no_data (multimeter_ex monitor_at_0))))
    = Raise ValueError /\
  data_ (snd (events no_data (multimeter_ex monitor_at_0))) = empty_DataArray.
Proof.
  destruct (continuous_events_raise no_data (multimeter_ex monitor_at_0))
    as (e & F & H1 & H2 & H3 & H4); [reflexivity | discriminate |].
  rewrite H1. cbn [fst snd]. rewrite H2, H3, H4 by (simpl; eauto).
  repeat split.
Defined.

(** The same on [number_of_events]. *)
Lemma continuous_number_of_events_raises (self : Device) :
  continuous (kind self) = true ->
  monitors self <> [] ->
  exists e,
    fst (number_of_events self) = Raise e /\
    (is_Some (annarchy_instance self) -> e = ValueError).
Proof.
  intros Hc Hm.
  destruct (continuous_record_raises self Hc Hm) as (e & He & Hv).
  exists e. rewrite number_of_events_unfold, He. auto.
Qed.

(** ** The spike devices *)

Lemma init_multimeter_ex (m : Monitor) :
  monitor_id m = 0%nat ->
  init ANNarchyMultimeter [(m, population_ex)] (Some network_ex)
    = Ok (multimeter_ex m).
Proof. intros H. unfold init, _get_monitors_inds. simpl. now rewrite H. Qed.

Lemma init_spike_detector_ex :
  init ANNarchySpikeDetector [(monitor_at_1, population_ex)] (Some network_ex)
    = Ok spike_detector_ex.
Proof. reflexivity. Qed.

Lemma init_spec (k : Kind) (ms : list (Monitor * Population))
    (instance : option Network) (self : Device) :
  init k ms instance = Ok self ->
  kind self = k /\ monitors self = ms /\ data_ self = empty_DataArray.
Proof.
  unfold init. destruct instance as [net|].
  - destruct (_get_monitors_inds ms net); simpl; [|discriminate].
    now intros [= <-].
  - now intros [= <-].
Qed.

Lemma spike_record_raises (k : Kind) (ms : list (Monitor * Population))
    (instance : option Network) (self : Device) :
  continuous k = false ->
  ms <> [] ->
  init k ms instance = Ok self ->
  _record self = (Raise (AttributeError "append"), self).
Proof.
  intros Hk Hms Hi. apply init_spec in Hi as (Ek & Em & Ed).
  unfold _record, ANNarchySpikeDetector_record. rewrite Ek, Em.
  destruct ms as [|[m pop] ms]; [congruence|].
  destruct k; try discriminate; simpl; now rewrite Ed.
Qed.

(** C6: on every spike detector and spike multimeter that [__init__] built
    with at least one monitor, [events] raises [AttributeError] instead of
    returning a mapping: [ANNarchySpikeDetector._record] treats the buffer
    as a list of dictionaries and calls [append] on it, but [__init__] made
    it a [DataArray]. *)
Theorem spike_events_raises
    (data_attr : Device -> result (list (list (Z * list Z)))) (k : Kind)
    (ms : list (Monitor * Population)) (instance : option Network)
    (self : Device) :
  continuous k = false ->
  ms <> [] ->
  init k ms instance = Ok self ->
  events data_attr self = (Raise (AttributeError "append"), self).
Proof.
  intros Hk Hms Hi. rewrite events_unfold.
  now rewrite (spike_record_raises k ms instance self Hk Hms Hi).
Qed.

Lemma spike_events_raises_witness :
  events no_data spike_detector_ex
    = (Raise (AttributeError "append"), spike_detector_ex).
Proof.
  apply (spike_events_raises no_data ANNarchySpikeDetector
           [(monitor_at_1, population_ex)] (Some network_ex));
    [reflexivity | discriminate | reflexivity].
Defined.

(** C7: on the same devices [number_of_events] raises the same
    [AttributeError] instead of returning a count. *)
Theorem spike_number_of_events_raises (k : Kind)
    (ms : list (Monitor * Population)) (instance : option Network)
    (self : Device) :
  continuous k = false ->
  ms <> [] ->
  init k ms instance = Ok self ->
  number_of_events self = (Raise (AttributeError "append"), self).
Proof.
  intros Hk Hms Hi. rewrite number_of_events_unfold.
  now rewrite (spike_record_raises k ms instance self Hk Hms Hi).
Qed.

Lemma spike_number_of_events_raises_witness :
  number_of_events spike_detector_ex
    = (Raise (AttributeError "append"), spike_detector_ex).
Proof.
  apply (spike_number_of_events_raises ANNarchySpikeDetector
           [(monitor_at_1, population_ex)] (Some network_ex));
    [reflexivity | discriminate | reflexivity].
Defined.

(* ===================================================================== *)
(** * Part III.  Further properties of the modelled code                  *)
(* ===================================================================== *)

(** ** What the communicators leave alone *)

Lemma extends_refl (w : world) : extends w w.
Proof. repeat split; auto. Qed.

Lemma extends_trans (w1 w2 w3 : world) :
  extends w1 w2 -> extends w2 w3 -> extends w1 w3.
Proof.
  intros (H1 & H2 & H3 & H4) (K1 & K2 & K3 & K4).
  repeat split; try congruence. auto.
Qed.

Lemma bind_extends {A B} (m : M A) (f : A -> M B) :
  (forall w, extends w (snd (m w))) ->
  (forall a w, extends w (snd (f a w))) ->
  forall w, extends w (snd (bind m f w)).
Proof.
  intros Hm Hf w. unfold bind. specialize (Hm w).
  destruct (m w) as [[a|e] w']; simpl in *; [|exact Hm].
  eapply extends_trans; [exact Hm | apply Hf].
Qed.

Lemma alloc_extends (a : ndarray) (w : world) : extends w (snd (alloc a w)).
Proof.
  unfold alloc, set_arrays; simpl. repeat split.
  intros l b Hl. simpl. rewrite lookup_insert_ne; [exact Hl|].
  intros <-. rewrite fresh_not_in in Hl. discriminate.
Qed.

Lemma deref_extends (l : loc) (w : world) : extends w (snd (deref l w)).
Proof. unfold deref. destruct (arrays w !! l); apply extends_refl. Qed.

Lemma np_copy_extends (l : loc) (w : world) : extends w (snd (np_copy l w)).
Proof.
  apply bind_extends; [apply deref_extends | intros; apply alloc_extends].
Qed.

Lemma get_transformer_extends (t : loc) (w : world) :
  extends w (snd (get_transformer t w)).
Proof.
  unfold get_transformer. destruct (transformers w !! t); apply extends_refl.
Qed.

Lemma lift_extends {A} (r : result A) (w : world) : extends w (snd (lift r w)).
Proof. apply extends_refl. Qed.

Lemma np_load_extends (file : string) (w : world) :
  extends w (snd (np_load file w)).
Proof.
  unfold np_load. destruct (files w !! file) as [[c ms|a|[|b bs]]|];
    try destruct (zip_magic (b :: bs)); apply extends_refl.
Qed.

(** X1: [receive] only reads.  For every communicator and every world,
    whatever the outcome, [receive] leaves every transformer, every file
    and every array that existed as it was; all it may do is create new
    arrays. *)
Theorem receive_reads_only (self : Communicator) (w : world) :
  extends w (snd (receive self w)).
Proof.
  destruct self as [t | t | p | p]; simpl; try apply extends_refl.
  - unfold GetFromTransformer_receive.
    repeat (apply bind_extends; [first [apply get_transformer_extends
                                       | apply np_copy_extends]|]; intros).
    apply extends_refl.
  - unfold NPZReader_receive.
    apply bind_extends; [apply np_load_extends|].
    intros [members|a] w'; [|apply extends_refl].
    repeat (apply bind_extends; [first [apply lift_extends
                                       | apply alloc_extends]|]; intros).
    apply extends_refl.
Qed.

(** X2: [NPZWriter.send] writes one file or nothing.  For every target,
    argument and world: no array and no transformer changes, no file other
    than the target path (with [.npz] appended when missing) changes; when
    the call raises, the world is exactly as before; [None] raises
    [TypeError] and a sequence of fewer than two arrays raises
    [IndexError]. *)
Theorem NPZWriter_send_frame (target : string) (d : data) (w : world) :
  arrays (snd (send (NPZWriter target) d w)) = arrays w /\
  transformers (snd (send (NPZWriter target) d w)) = transformers w /\
  (forall p, p <> npz_name target ->
     files (snd (send (NPZWriter target) d w)) !! p = files w !! p) /\
  (forall e, fst (send (NPZWriter target) d w) = Raise e ->
     snd (send (NPZWriter target) d w) = w) /\
  (d = None -> fst (send (NPZWriter target) d w) = Raise TypeError) /\
  (forall items, d = Some items -> (length items < 2)%nat ->
     fst (send (NPZWriter target) d w) = Raise IndexError).
Proof.
  simpl. unfold NPZWriter_send, np_savez, bind, subscript, lift, raise.
  destruct d as [[|l0 [|l1 rest]]|]; simpl;
    try (repeat split; auto; try discriminate;
         intros items [= <-]; simpl; intros; try reflexivity; lia).
  unfold bind, deref, ret.
  destruct (arrays w !! l0) as [a0|]; simpl;
    [destruct (arrays w !! l1) as [a1|]; simpl;
     [destruct (can_open_w w (npz_name target)); simpl|]|];
    repeat split; auto; try discriminate;
    try (intros items [= <-]; simpl; lia).
  intros p Hp. now rewrite lookup_insert_ne.
Qed.

(** X3: a second [NPZWriter.send] to the same target replaces the archive.
    After two successive sends to one target the files are exactly those a
    single send of the second pair leaves: nothing of the first pair
    remains. *)
Theorem NPZWriter_send_overwrites (target : string) (w : world)
    (l0 l1 l2 l3 : loc) (a0 a1 a2 a3 : ndarray) :
  arrays w !! l0 = Some a0 -> arrays w !! l1 = Some a1 ->
  arrays w !! l2 = Some a2 -> arrays w !! l3 = Some a3 ->
  can_open_w w (npz_name target) = true ->
  send (NPZWriter target) (Some [l2; l3])
    (snd (send (NPZWriter target) (Some [l0; l1]) w)) =
  send (NPZWriter target) (Some [l2; l3]) w /\
  files (snd (send (NPZWriter target) (Some [l2; l3]) w)) !! npz_name target =
    Some (ZipFile ZIP_STORED [("time.npy", a2); ("values.npy", a3)]).
Proof.
  intros H0 H1 H2 H3 Hw. simpl.
  rewrite (NPZWriter_send_spec w target l0 l1 [] a0 a1 H0 H1), Hw. simpl.
  rewrite (NPZWriter_send_spec w target l2 l3 [] a2 a3 H2 H3), Hw. simpl.
  rewrite (NPZWriter_send_spec _ target l2 l3 [] a2 a3) by exact H2 || exact H3.
  simpl. rewrite Hw. unfold set_files; simpl.
  rewrite insert_insert_eq, lookup_insert_eq. auto.
Qed.

Lemma NPZWriter_send_overwrites_witness :
  send (NPZWriter "out") (Some [values_ref; time_ref])
    (snd (send (NPZWriter "out") (Some [time_ref; values_ref]) world_ex)) =
  send (NPZWriter "out") (Some [values_ref; time_ref]) world_ex /\
  files (snd (send (NPZWriter "out") (Some [values_ref; time_ref]) world_ex))
    !! npz_name "out" =
    Some (ZipFile ZIP_STORED [("time.npy", values_ex); ("values.npy", time_ex)]).
Proof.
  apply (NPZWriter_send_overwrites "out" world_ex time_ref values_ref
           values_ref time_ref time_ex values_ex values_ex time_ex);
    vm_compute; reflexivity.
Defined.

(** ** [SetToTransformer.send] in every outcome *)

Lemma updates_inputs_of_refl (t : loc) (w : world) : updates_inputs_of t w w.
Proof. repeat split; eauto. Qed.

Lemma updates_inputs_of_trans (t : loc) (w1 w2 w3 : world) :
  updates_inputs_of t w1 w2 -> updates_inputs_of t w2 w3 ->
  updates_inputs_of t w1 w3.
Proof.
  intros (H1 & H2 & H3 & H4 & H5 & H6) (K1 & K2 & K3 & K4 & K5 & K6).
  repeat split; try congruence; auto.
  - intros t' Hne. rewrite K4, H4; auto.
  - intros tr Htr. destruct (H5 _ Htr) as (tr' & Htr' & E1 & E2).
    destruct (K5 _ Htr') as (tr'' & Htr'' & E3 & E4).
    exists tr''. repeat split; congruence.
Qed.

Lemma extends_updates_inputs_of (t : loc) (w w' : world) :
  extends w w' -> updates_inputs_of t w w'.
Proof.
  intros (H1 & H2 & H3 & H4). repeat split; auto.
  - intros. now rewrite H1.
  - intros tr Htr. exists tr. now rewrite H1.
  - now rewrite H1.
Qed.

Lemma bind_updates_inputs_of {A B} (t : loc) (m : M A) (f : A -> M B) :
  (forall w, updates_inputs_of t w (snd (m w))) ->
  (forall a w, updates_inputs_of t w (snd (f a w))) ->
  forall w, updates_inputs_of t w (snd (bind m f w)).
Proof.
  intros Hm Hf w. unfold bind. specialize (Hm w).
  destruct (m w) as [[a|e] w']; simpl in *; [|exact Hm].
  eapply updates_inputs_of_trans; [exact Hm | apply Hf].
Qed.

Lemma subscript_extends (d : data) (i : nat) (w : world) :
  extends w (snd (subscript d i w)).
Proof. destruct d; apply extends_refl. Qed.

Lemma set_input_time_updates (t l : loc) (w : world) :
  updates_inputs_of t w (snd (set_input_time t l w)).
Proof.
  unfold set_input_time, bind, get_transformer, set_transformers.
  destruct (transformers w !! t) as [tr|] eqn:E; simpl;
    [|apply updates_inputs_of_refl].
  repeat split; simpl; auto.
  - intros t' Hne. now rewrite lookup_insert_ne.
  - intros tr0 Htr0. rewrite lookup_insert_eq. eexists. split; [reflexivity|].
    simpl. split; congruence.
  - congruence.
Qed.

Lemma set_input_buffer_updates (t l : loc) (w : world) :
  updates_inputs_of t w (snd (set_input_buffer t l w)).
Proof.
  unfold set_input_buffer, bind, get_transformer, set_transformers.
  destruct (transformers w !! t) as [tr|] eqn:E; simpl;
    [|apply updates_inputs_of_refl].
  repeat split; simpl; auto.
  - intros t' Hne. now rewrite lookup_insert_ne.
  - intros tr0 Htr0. rewrite lookup_insert_eq. eexists. split; [reflexivity|].
    simpl. split; congruence.
  - congruence.
Qed.

(** X4: what [SetToTransformer.send] can touch.  For every target,
    argument and world, and whether the call returns or raises: no file
    changes, every array that existed keeps its contents, every other
    transformer is as it was, and the target keeps its [output_time] and
    [output_buffer]; only the two input attributes of the target may be
    rebound, to new arrays. *)
Theorem SetToTransformer_send_frame (target : loc) (d : data) (w : world) :
  updates_inputs_of target w (snd (send (SetToTransformer target) d w)).
Proof.
  simpl. unfold SetToTransformer_send.
  repeat (apply bind_updates_inputs_of;
          [first [ intros; apply extends_updates_inputs_of;
                   first [apply subscript_extends | apply np_copy_extends]
                 | intros; apply set_input_time_updates ]|]; intros).
  apply set_input_buffer_updates.
Qed.

(** X5: [SetToTransformer.send] is not atomic.  Given a sequence with one
    array only, it raises [IndexError] at [data[1]] after [input_time] of
    the target has already been rebound to a copy of [data[0]]: the target
    is left with the new time and the old buffer.  (An empty sequence
    raises [IndexError] before anything is changed.) *)
Theorem SetToTransformer_send_partial (w : world) (t : loc) (tr : Transformer)
    (l0 : loc) (a0 : ndarray) :
  transformers w !! t = Some tr ->
  arrays w !! l0 = Some a0 ->
  send (SetToTransformer t) (Some []) w = (Raise IndexError, w) /\
  exists c0 w',
    send (SetToTransformer t) (Some [l0]) w = (Raise IndexError, w') /\
    arrays w !! c0 = None /\
    arrays w' !! c0 = Some a0 /\
    transformers w' !! t =
      Some (mk_Transformer c0 (input_buffer tr) (output_time tr)
              (output_buffer tr)).
Proof.
  intros Ht H0. split; [reflexivity|].
  exists (fresh (dom (arrays w))). eexists. split; [|split; [|split]].
  - simpl.
    unfold SetToTransformer_send, bind, subscript, lift, np_copy, bind, deref,
      alloc, set_input_time, bind, get_transformer; simpl.
    rewrite H0; simpl. rewrite Ht; simpl. reflexivity.
  - apply fresh_not_in.
  - simpl. apply lookup_insert_eq.
  - simpl. apply lookup_insert_eq.
Qed.

Lemma SetToTransformer_send_partial_witness :
  send (SetToTransformer transformer_ref) (Some []) world_ex =
    (Raise IndexError, world_ex) /\
  exists c0 w',
    send (SetToTransformer transformer_ref) (Some [time_ref]) world_ex =
      (Raise IndexError, w') /\
    arrays world_ex !! c0 = None /\
    arrays w' !! c0 = Some time_ex /\
    transformers w' !! transformer_ref =
      Some (mk_Transformer c0 (input_buffer transformer_ex)
              (output_time transformer_ex) (output_buffer transformer_ex)).
Proof.
  apply (SetToTransformer_send_partial world_ex transformer_ref transformer_ex
           time_ref time_ex);
    vm_compute; reflexivity.
Defined.

(** ** Receiving again *)

(** X6: [receive] can be repeated.  For both receivers: when a call
    returns, the same call made right after it returns too, with as many
    arrays, each with the contents of the corresponding array of the first
    call, and every one of them a new object (none is an array of the first
    result or any array that existed). *)
Theorem receive_repeatable (self : Communicator) (w w1 : world)
    (refs : list loc) :
  receive self w = (Ok refs, w1) ->
  exists refs' w2,
    receive self w1 = (Ok refs', w2) /\
    Forall2 (fun r' r => arrays w2 !! r' = arrays w1 !! r /\
                         is_Some (arrays w1 !! r)) refs' refs /\
    Forall (fun r' => arrays w1 !! r' = None) refs'.
Proof.
  destruct self as [t | t | p | p]; simpl; try discriminate.
  - unfold GetFromTransformer_receive, bind, get_transformer.
    destruct (transformers w !! t) as [tr|] eqn:Ht; simpl; [|discriminate].
    unfold np_copy at 1, bind, deref.
    destruct (arrays w !! output_time tr) as [o0|] eqn:H0; simpl;
      [|discriminate].
    rewrite Ht; simpl.
    unfold np_copy, bind, deref. simpl.
    pose proof (fresh_not_in (arrays w)) as F0.
    set (r0 := fresh (dom (arrays w))) in *.
    destruct (<[r0 := o0]> (arrays w) !! output_buffer tr) as [o1|] eqn:H1;
      simpl; [|discriminate].
    pose proof (fresh_not_in (<[r0 := o0]> (arrays w))) as F1.
    set (r1 := fresh (dom (<[r0 := o0]> (arrays w)))) in *.
    unfold ret. intros [= <- <-]. simpl.
    assert (H0' : <[r1 := o1]> (<[r0 := o0]> (arrays w)) !! output_time tr
                  = Some o0).
    { rewrite !lookup_insert_ne; [exact H0 | |]; intros E.
      - rewrite E in F0; congruence.
      - rewrite E in F1. rewrite lookup_insert_ne in F1; [congruence|].
        intros E'. rewrite <- E' in H0. congruence. }
    assert (H1' : <[r1 := o1]> (<[r0 := o0]> (arrays w)) !! output_buffer tr
                  = Some o1).
    { rewrite lookup_insert_ne; [exact H1|]. intros E. rewrite E in F1.
      congruence. }
    destruct (GetFromTransformer_receive_spec
                (mk_world (<[r1 := o1]> (<[r0 := o0]> (arrays w)))
                   (transformers w) (files w) (can_open_w w)) t tr o0 o1
                Ht H0' H1') as (s0 & s1 & Hr & G0 & G1 & Hne).
    unfold GetFromTransformer_receive, bind, get_transformer, np_copy, bind,
      deref, ret in Hr. simpl in Hr. simpl in G0, G1.
    eexists _, _. split; [exact Hr|]. simpl.
    apply lookup_insert_None in F1 as [F1 Hr01].
    split; [|repeat constructor; assumption].
    repeat constructor.
    + rewrite lookup_insert_ne, lookup_insert_eq by congruence.
      now rewrite lookup_insert_ne, lookup_insert_eq.
    + rewrite lookup_insert_ne, lookup_insert_eq by congruence. eauto.
    + now rewrite !lookup_insert_eq.
    + rewrite lookup_insert_eq. eauto.
  - unfold NPZReader_receive, bind, np_load, lift.
    destruct (files w !! p) as [[c ms|a|[|b bs]]|] eqn:Hf;
      try (destruct (zip_magic (b :: bs)); discriminate); simpl;
      try discriminate.
    2:{ destruct (read_array a); simpl; discriminate. }
    destruct (npz_getitem ms "time") as [a0|] eqn:E0; simpl; [|discriminate].
    destruct (npz_getitem ms "values") as [a1|] eqn:E1; simpl; [|discriminate].
    unfold ret. intros [= <- <-]. simpl. rewrite Hf. simpl.
    rewrite E0. simpl. rewrite E1. simpl.
    eexists _, _. split; [reflexivity|]. simpl.
    set (r0 := fresh (dom (arrays w))).
    set (m1 := <[r0 := a0]> (arrays w)).
    set (r1 := fresh (dom m1)).
    set (m2 := <[r1 := a1]> m1).
    set (s0 := fresh (dom m2)).
    set (m3 := <[s0 := a0]> m2).
    set (s1 := fresh (dom m3)).
    pose proof (fresh_not_in m1) as F1. fold r1 in F1.
    pose proof (fresh_not_in m2) as F2. fold s0 in F2.
    pose proof (fresh_not_in m3) as F3. fold s1 in F3.
    unfold m3 in F3. apply lookup_insert_None in F3 as [F3 Hs].
    assert (Hr : r0 <> r1).
    { intros E. unfold m1 in F1. rewrite <- E, lookup_insert_eq in F1.
      discriminate. }
    split; [|repeat constructor; assumption].
    repeat constructor.
    + unfold m3. rewrite lookup_insert_ne, lookup_insert_eq by congruence.
      unfold m2, m1. now rewrite lookup_insert_ne, lookup_insert_eq.
    + unfold m2, m1. rewrite lookup_insert_ne, lookup_insert_eq by congruence.
      eauto.
    + rewrite lookup_insert_eq. unfold m2. now rewrite lookup_insert_eq.
    + unfold m2. rewrite lookup_insert_eq. eauto.
Qed.

Lemma receive_repeatable_witness :
  exists refs' w2,
    receive (GetFromTransformer transformer_ref)
      (snd (receive (GetFromTransformer transformer_ref) world_ex)) =
      (Ok refs', w2) /\
    Forall2 (fun r' r =>
               arrays w2 !! r' =
                 arrays (snd (receive (GetFromTransformer transformer_ref)
                                world_ex)) !! r /\
               is_Some (arrays (snd (receive (GetFromTransformer
                                                transformer_ref) world_ex))
                          !! r))
      refs' [14%positive; 15%positive] /\
    Forall (fun r' =>
              arrays (snd (receive (GetFromTransformer transformer_ref)
                             world_ex)) !! r' = None) refs'.
Proof.
  apply (receive_repeatable (GetFromTransformer transformer_ref) world_ex).
  vm_compute. reflexivity.
Defined.

(** ** The populations of a device *)

Lemma get_neurons_loop_spec (pops : list Population) :
  forall acc : list Population,
    NoDup acc ->
    exists l',
      fold_left
        (fun neurons pop =>
           if bool_decide (pop ∈ neurons) then neurons else neurons ++ [pop])
        pops acc = acc ++ l' /\
      NoDup (acc ++ l') /\
      sublist l' pops /\
      (forall p, p ∈ acc ++ l' <-> p ∈ acc \/ p ∈ pops).
Proof.
  induction pops as [|pop pops IH]; intros acc Hnd; simpl.
  - exists []. rewrite app_nil_r.
    split; [reflexivity|]. split; [exact Hnd|]. split; [constructor|].
    intros p. rewrite elem_of_nil. tauto.
  - destruct (bool_decide (pop ∈ acc)) eqn:E.
    + apply bool_decide_eq_true in E.
      destruct (IH acc Hnd) as (l' & H1 & H2 & H3 & H4).
      exists l'. split; [exact H1|]. split; [exact H2|].
      split; [now apply sublist_cons|].
      intros p. rewrite H4, elem_of_cons.
      split; [tauto|]. intros [H|[->|H]]; auto.
    + apply bool_decide_eq_false in E.
      assert (Hnd' : NoDup (acc ++ [pop])).
      { apply NoDup_app. split; [exact Hnd|]. split; [|apply NoDup_singleton].
        intros x Hx Hx'. apply list_elem_of_singleton in Hx'. congruence. }
      destruct (IH (acc ++ [pop]) Hnd') as (l' & H1 & H2 & H3 & H4).
      exists (pop :: l'). rewrite H1, <- app_assoc. simpl.
      rewrite <- app_assoc in H2, H4. simpl in H2, H4.
      split; [reflexivity|]. split; [exact H2|].
      split; [now apply sublist_skip|].
      intros p. rewrite H4, elem_of_app, list_elem_of_singleton, elem_of_cons.
      tauto.
Qed.

(** X7: [get_neurons] (and the property [populations] it reads).  On a
    device without monitors it raises [IndexError]; on any other device it
    returns the populations of the monitors without repetition: every
    population of a monitor occurs in the result exactly once, nothing else
    occurs, the order is that of the monitors, and the population of the
    first monitor comes first. *)
Theorem get_neurons_spec (self : Device) :
  (monitors self = [] -> get_neurons self = Raise IndexError) /\
  (monitors self <> [] ->
   exists l,
     get_neurons self = Ok l /\
     NoDup l /\
     (forall p, p ∈ l <-> p ∈ map snd (monitors self)) /\
     sublist l (map snd (monitors self)) /\
     head l = head (map snd (monitors self))).
Proof.
  unfold get_neurons, populations. split.
  - intros ->. reflexivity.
  - destruct (monitors self) as [|[m pop] ms]; [congruence|]. intros _.
    cbn [map snd rbind].
    destruct (get_neurons_loop_spec (map snd ms) [pop])
      as (l' & H1 & H2 & H3 & H4).
    { apply NoDup_singleton. }
    exists ([pop] ++ l'). split.
    { cbn [fold_left].
      rewrite bool_decide_eq_false_2 by apply not_elem_of_nil.
      simpl. simpl in H1. now rewrite H1. }
    split; [exact H2|]. split; [|split; [|reflexivity]].
    + intros p. rewrite H4, list_elem_of_singleton, elem_of_cons. tauto.
    + simpl. now apply sublist_skip.
Qed.

(** ** The indices of the monitors *)

Lemma list_index_Ok {A} `{EqDecision A} (x : A) (l : list A) :
  forall i, list_index x l = Ok i ->
    l !! i = Some x /\ forall j, (j < i)%nat -> l !! j <> Some x.
Proof.
  induction l as [|y l IH]; intros i; simpl; [discriminate|].
  destruct (decide (x = y)) as [->|Hne].
  - intros [= <-]. split; [reflexivity | lia].
  - destruct (list_index x l) as [i'|e]; simpl; [|discriminate].
    intros [= <-]. destruct (IH i' eq_refl) as [H1 H2].
    split; [exact H1|]. intros [|j] Hj; simpl; [congruence | apply H2; lia].
Qed.

Lemma list_index_In {A} `{EqDecision A} (x : A) (l : list A) :
  In x l -> exists i, list_index x l = Ok i.
Proof.
  induction l as [|y l IH]; simpl; [tauto|].
  intros Hin. destruct (decide (x = y)) as [->|Hne]; [eauto|].
  destruct IH as [i ->]; [destruct Hin; congruence|]. simpl. eauto.
Qed.

Lemma list_index_Raise {A} `{EqDecision A} (x : A) (l : list A) (e : exn) :
  list_index x l = Raise e -> e = ValueError /\ ~ In x l.
Proof.
  induction l as [|y l IH]; simpl.
  - intros [= <-]. tauto.
  - destruct (decide (x = y)) as [->|Hne]; [discriminate|].
    destruct (list_index x l) as [i'|e']; simpl; [discriminate|].
    intros [= <-]. destruct (IH eq_refl) as [-> Hn]. split; [reflexivity|].
    intros [->|Hin]; tauto.
Qed.

(** X8: the indices of the monitors point back at the monitors.  For a
    device built on a network: when every monitor is registered in the
    network, [__init__] succeeds and [monitors_inds] returns, without
    changing the device, one index per monitor, in the order of the
    monitors, each the first position of its monitor in the network's
    list; when some monitor is not registered, [__init__] raises
    [ValueError]. *)
Theorem monitors_inds_spec (k : Kind) (ms : list (Monitor * Population))
    (net : Network) :
  (Forall (fun mp => In (monitor_id (fst mp)) (net_monitors net)) ms ->
   exists self inds,
     init k ms (Some net) = Ok self /\
     monitors_inds self = (Ok inds, self) /\
     Forall2 (fun mp ind =>
                net_monitors net !! ind = Some (monitor_id (fst mp)) /\
                forall j, (j < ind)%nat ->
                  net_monitors net !! j <> Some (monitor_id (fst mp)))
             ms inds) /\
  (~ Forall (fun mp => In (monitor_id (fst mp)) (net_monitors net)) ms ->
   init k ms (Some net) = Raise ValueError).
Proof.
  unfold init, _get_monitors_inds. split.
  - intros Hall.
    assert (H : exists inds,
               mapM (fun mp : Monitor * Population =>
                       list_index (monitor_id (fst mp)) (net_monitors net)) ms
               = Ok inds /\
               Forall2 (fun mp ind =>
                          net_monitors net !! ind = Some (monitor_id (fst mp)) /\
                          forall j, (j < ind)%nat ->
                            net_monitors net !! j <> Some (monitor_id (fst mp)))
                       ms inds).
    { induction Hall as [|mp ms' Hin _ IH]; simpl.
      - exists []. split; [reflexivity | constructor].
      - destruct (list_index_In _ _ Hin) as [i Hi]. rewrite Hi. simpl.
        destruct IH as (inds & -> & HF). simpl.
        exists (i :: inds). split; [reflexivity|].
        constructor; [now apply list_index_Ok | exact HF]. }
    destruct H as (inds & -> & HF). simpl.
    eexists _, inds. split; [reflexivity|]. split; [reflexivity | exact HF].
  - intros Hnot.
    assert (H : mapM (fun mp : Monitor * Population =>
                        list_index (monitor_id (fst mp)) (net_monitors net)) ms
                = Raise ValueError).
    { induction ms as [|mp ms' IH]; simpl.
      - exfalso. apply Hnot. constructor.
      - destruct (list_index (monitor_id (fst mp)) (net_monitors net))
          as [i|e] eqn:Hi; simpl.
        + rewrite IH; [reflexivity|]. intros HF. apply Hnot.
          constructor; [|exact HF].
          apply list_index_Ok in Hi as [Hi _].
          apply list_elem_of_In. eapply list_elem_of_lookup_2. exact Hi.
        + apply list_index_Raise in Hi as [-> _]. reflexivity. }
    now rewrite H.
Qed.

(** ** [reset] *)

(** X9: [reset] on a device as [__init__] built it.  Without monitors
    it returns and leaves the device as it is (the buffer is empty
    already).  With at least one monitor it raises before the buffer is
    replaced, [AttributeError] on a spike detector or spike multimeter,
    [ValueError] on a multimeter, monitor or voltmeter built on a
    network, and raises the same when it is repeated: such a device
    cannot be reset. *)
Theorem reset_raises_with_monitors (k : Kind)
    (ms : list (Monitor * Population)) (instance : option Network)
    (self : Device) :
  init k ms instance = Ok self ->
  (ms = [] -> reset self = (Ok tt, self)) /\
  (ms <> [] ->
   exists e F,
     reset self = (Raise e, F) /\
     reset F = (Raise e, F) /\
     data_ F = empty_DataArray /\
     (continuous k = false -> e = AttributeError "append") /\
     (continuous k = true -> is_Some instance -> e = ValueError)).
Proof.
  intros Hi. pose proof (init_spec k ms instance self Hi) as (Ek & Em & Ed).
  assert (Ei : annarchy_instance self = instance).
  { unfold init in Hi. destruct instance as [net|].
    - destruct (_get_monitors_inds ms net); simpl in Hi; [|discriminate].
      now injection Hi as <-.
    - now injection Hi as <-. }
  split.
  - intros ->. unfold reset, _record, ANNarchyOutputDevice_record,
      ANNarchySpikeDetector_record. rewrite Em.
    destruct (kind self); simpl; rewrite <- Ed; now rewrite set_data_id.
  - intros Hms.
    destruct (record_props self) as (_ & _ & _ & Hd & _ & Hr).
    assert (H : exists e,
               fst (_record self) = Raise e /\
               (continuous k = false -> e = AttributeError "append") /\
               (continuous k = true -> is_Some instance -> e = ValueError)).
    { destruct (continuous k) eqn:Hc.
      - destruct (continuous_record_raises self) as (e & He & Hv);
          [now rewrite Ek | now rewrite Em |].
        exists e. split; [exact He|]. split; [discriminate|].
        intros _ Hs. apply Hv. now rewrite Ei.
      - exists (AttributeError "append").
        rewrite (spike_record_raises k ms instance self Hc Hms Hi).
        split; [reflexivity|]. split; [reflexivity | discriminate]. }
    destruct H as (e & He & H1 & H2).
    exists e, (snd (_record self)).
    unfold reset. rewrite Hr.
    destruct (_record self) as [[[]|e'] F]; simpl in *; [discriminate|].
    injection He as ->. rewrite Hd, Ed. auto.
Qed.

Lemma reset_raises_with_monitors_witness :
  fst (reset (multimeter_ex monitor_at_0)) = Raise ValueError /\
  data_ (snd (reset (multimeter_ex monitor_at_0))) = empty_DataArray.
Proof.
  destruct (reset_raises_with_monitors ANNarchyMultimeter
              [(monitor_at_0, population_ex)] (Some network_ex)
              (multimeter_ex monitor_at_0) eq_refl) as [_ H].
  destruct H as (e & F & H1 & _ & H3 & _ & H5); [discriminate|].
  rewrite H1. cbn [fst snd]. rewrite H3, H5 by (simpl; eauto).
  split; reflexivity.
Defined.

(** ** The batch files of the priors' samples *)

Lemma batches_loop_saved {A} (config : Config) (s : list A) (iG : option Z)
    (filepath extension : string) (iBs : list nat) :
  forall (acc : list (list A)) (d d' : disk) (r : list (list A)),
    batches_loop config s iG true filepath extension iBs acc d = (Ok r, d') ->
    (forall p,
       (forall iB, In iB iBs ->
          p <> batch_priors_filepath iB config iG filepath extension) ->
       saved d' !! p = saved d !! p) /\
    (List.NoDup iBs ->
     (forall i j, In i iBs -> In j iBs ->
        batch_priors_filepath i config iG filepath extension =
        batch_priors_filepath j config iG filepath extension -> i = j) ->
     forall iB, In iB iBs ->
       saved d' !! batch_priors_filepath iB config iG filepath extension =
       Some (slice_from_step s iB (Z.to_nat (N_SIM_BATCHES config)))).
Proof.
  induction iBs as [|iB iBs IH]; intros acc d d' r; simpl.
  - intros [= <- <-]. split; [reflexivity | tauto].
  - unfold torch_save.
    destruct (writable d (batch_priors_filepath iB config iG filepath extension));
      [|discriminate].
    intros Hl. apply IH in Hl as [Hframe Hget]. cbn [saved] in Hframe.
    split.
    + intros p Hp. rewrite Hframe by (intros j Hj; apply Hp; now right).
      apply lookup_insert_ne. intros E. apply (Hp iB); [now left | now symmetry].
    + intros Hnd Hinj j [<-|Hj].
      * apply List.NoDup_cons_iff in Hnd as [Hnotin _].
        rewrite Hframe; [apply lookup_insert_eq|].
        intros j Hj E. apply Hinj in E; [|now left | now right]. congruence.
      * apply List.NoDup_cons_iff in Hnd as [_ Hnd].
        apply Hget; [exact Hnd | | exact Hj].
        intros i' j' Hi' Hj'. apply Hinj; now right.
Qed.

Lemma batches_loop_result {A} (config : Config) (s : list A) (iG : option Z)
    (w : bool) (filepath extension : string) (iBs : list nat) :
  forall (acc : list (list A)) (d d' : disk) (r : list (list A)),
    batches_loop config s iG w filepath extension iBs acc d = (Ok r, d') ->
    r = acc ++ map (fun iB => slice_from_step s iB
                                (Z.to_nat (N_SIM_BATCHES config))) iBs.
Proof.
  induction iBs as [|iB iBs IH]; intros acc d d' r; simpl.
  - intros [= <- <-]. now rewrite app_nil_r.
  - destruct w.
    + destruct (torch_save _ _ d) as [[[]|e] d1]; [|discriminate].
      intros Hl. apply IH in Hl. now rewrite <- app_assoc in Hl.
    + intros Hl. apply IH in Hl. now rewrite <- app_assoc in Hl.
Qed.

(** X12: the batch files can be read back.  After
    [priors_samples_per_batch] has returned with [write_to_files] set, and
    provided different batch numbers give different file paths, for every
    batch number [iB] below [N_SIM_BATCHES] the call
    [load_priors_samples_per_batch(iB, iG, config)] returns the slice
    [priors_samples[iB::N_SIM_BATCHES]], which is also entry [iB] of the
    list returned; and no file other than the batch files has changed. *)
Theorem batches_round_trip {A}
    (sample_priors_for_sbi : Config -> result (list A)) (s : list A)
    (iG : option Z) (config : Config) (d d' : disk)
    (batches : list (list A)) :
  priors_samples_per_batch sample_priors_for_sbi (Some s) iG config true d
    = (Ok batches, d') ->
  (forall i j, i < Z.to_nat (N_SIM_BATCHES config) ->
     j < Z.to_nat (N_SIM_BATCHES config) ->
     batch_priors_filepath i config iG (fst (PRIORS_SAMPLES_PATH config))
       (snd (PRIORS_SAMPLES_PATH config)) =
     batch_priors_filepath j config iG (fst (PRIORS_SAMPLES_PATH config))
       (snd (PRIORS_SAMPLES_PATH config)) -> i = j) ->
  (forall iB, iB < Z.to_nat (N_SIM_BATCHES config) ->
     load_priors_samples_per_batch iB iG config d' =
       Ok (slice_from_step s iB (Z.to_nat (N_SIM_BATCHES config))) /\
     batches !! iB =
       Some (slice_from_step s iB (Z.to_nat (N_SIM_BATCHES config)))) /\
  (forall p,
     (forall iB, iB < Z.to_nat (N_SIM_BATCHES config) ->
        p <> batch_priors_filepath iB config iG
               (fst (PRIORS_SAMPLES_PATH config))
               (snd (PRIORS_SAMPLES_PATH config))) ->
     saved d' !! p = saved d !! p).
Proof.
  unfold priors_samples_per_batch, load_priors_samples_per_batch, torch_load.
  destruct (PRIORS_SAMPLES_PATH config) as [filepath extension]. simpl.
  intros Hl Hinj.
  pose proof (batches_loop_saved _ _ _ _ _ _ _ _ _ _ Hl) as [Hframe Hget].
  apply batches_loop_result in Hl as Hb. simpl in Hb.
  split.
  - intros iB HiB. split.
    + rewrite Hget; [reflexivity | apply seq_NoDup | |].
      * intros i j Hi Hj. unfold range in Hi, Hj.
        apply in_seq in Hi, Hj. apply Hinj; lia.
      * unfold range. apply in_seq. lia.
    + rewrite Hb. unfold range. rewrite list_lookup_fmap.
      rewrite lookup_seq_lt by lia. reflexivity.
  - intros p Hp. apply Hframe. intros iB HiB. unfold range in HiB.
    apply in_seq in HiB. apply Hp. lia.
Qed.

Lemma batches_round_trip_witness :
  load_priors_samples_per_batch 1 (Some 0%Z) config_ex
    (snd (priors_samples_per_batch (fun _ => Raise ValueError)
            (Some [10; 11; 12; 13; 14]%Z) (Some 0%Z) config_ex true
            (mk_disk ∅ (fun _ => true)))) =
    Ok (slice_from_step [10; 11; 12; 13; 14]%Z 1 2) /\
  slice_from_step [10; 11; 12; 13; 14]%Z 1 2 = [11; 13]%Z.
Proof.
  split; [|reflexivity].
  apply (batches_round_trip (fun _ => Raise ValueError)
           [10; 11; 12; 13; 14]%Z (Some 0%Z) config_ex
           (mk_disk ∅ (fun _ => true))
           (snd (priors_samples_per_batch (fun _ => Raise ValueError)
                   (Some [10; 11; 12; 13; 14]%Z) (Some 0%Z) config_ex true
                   (mk_disk ∅ (fun _ => true))))
           [[10; 12; 14]; [11; 13]]%Z).
  - vm_compute. reflexivity.
  - intros [|[|i]] [|[|j]] Hi Hj; vm_compute in Hi, Hj; try lia;
      vm_compute; congruence.
  - vm_compute. lia.
Defined.

(** ** Training: the attempts to build the posterior *)

Section TrainFacts.

Context {E P : Type}.
Variable build_posterior : E -> nat -> result P.
Variable de : E.

Lemma warnings_of_S (e : nat -> exn) (n calls k : nat) :
  warnings_of e (S n) calls (S k) =
  (e calls, (10 + - Z.of_nat (S n) + 2)%Z) :: warnings_of e n (S calls) k.
Proof.
  unfold warnings_of. cbn [seq map]. rewrite Nat.add_0_r. f_equal.
  - f_equal. lia.
  - rewrite <- seq_shift, map_map. apply map_ext. intros j.
    f_equal; [f_equal; lia | lia].
Qed.

Lemma build_loop_success (e : nat -> exn) (p : P) (k : nat) :
  forall n calls exception log,
    k < n ->
    (forall j, j < k -> build_posterior de (calls + j) = Raise (e (calls + j))) ->
    build_posterior de (calls + k) = Ok p ->
    exists exception',
      build_loop build_posterior de n calls exception log =
        (Some p, exception', log ++ warnings_of e n calls k).
Proof.
  induction k as [|k IH]; intros n calls exception log Hk Hfail Hok;
    (destruct n as [|n]; [lia|]); cbn [build_loop].
  - rewrite Nat.add_0_r in Hok. rewrite Hok. exists exception.
    unfold warnings_of. simpl. now rewrite app_nil_r.
  - pose proof (Hfail 0 ltac:(lia)) as H0. rewrite Nat.add_0_r in H0.
    rewrite H0.
    destruct (IH n (S calls) (Some (e calls))
                (log ++ [(e calls, (10 + - Z.of_nat (S n) + 2)%Z)]))
      as (exception' & ->).
    + lia.
    + intros j Hj. replace (S calls + j) with (calls + S j) by lia.
      apply Hfail. lia.
    + replace (S calls + k) with (calls + S k) by lia. exact Hok.
    + exists exception'. rewrite warnings_of_S, <- app_assoc. reflexivity.
Qed.

Lemma build_loop_failure (e : nat -> exn) (n : nat) :
  forall calls exception log,
    (forall j, j < n -> build_posterior de (calls + j) = Raise (e (calls + j))) ->
    build_loop build_posterior de n calls exception log =
      (None,
       match n with O => exception | S m => Some (e (calls + m)) end,
       log ++ warnings_of e n calls n).
Proof.
  induction n as [|n IH]; intros calls exception log Hfail; cbn [build_loop].
  - unfold warnings_of. simpl. now rewrite app_nil_r.
  - pose proof (Hfail 0 ltac:(lia)) as H0. rewrite Nat.add_0_r in H0.
    rewrite H0, IH.
    + rewrite warnings_of_S, <- app_assoc. simpl. f_equal. f_equal.
      destruct n as [|m]; [now rewrite Nat.add_0_r|].
      f_equal. f_equal. lia.
    + intros j Hj. replace (S calls + j) with (calls + S j) by lia.
      apply Hfail. lia.
Qed.

Lemma build_loop_ext (bp' : E -> nat -> result P) (n : nat) :
  forall calls exception log,
    (forall j, j < n -> bp' de (calls + j) = build_posterior de (calls + j)) ->
    build_loop bp' de n calls exception log =
    build_loop build_posterior de n calls exception log.
Proof.
  induction n as [|n IH]; intros calls exception log Hext; cbn [build_loop];
    [reflexivity|].
  pose proof (Hext 0 ltac:(lia)) as H0. rewrite Nat.add_0_r in H0.
  rewrite H0.
  destruct (build_posterior de calls); [reflexivity|].
  apply IH. intros j Hj. replace (S calls + j) with (calls + S j) by lia.
  apply Hext. lia.
Qed.

(** X13: [sbi_train] tries to build the posterior ten times at most.
    Once the network is trained: if the first [k < 10] calls of
    [build_posterior] raise and the next one returns, [sbi_train] returns
    that posterior after [k] warnings, numbered 2 to [k + 1]; if the first
    ten calls raise, it raises [Exception] with the last exception caught,
    after ten warnings, the last announcing an 11th attempt that is not
    made; and whatever an eleventh or later call would do has no effect on
    the result. *)
Theorem sbi_train_attempts (e : nat -> exn) :
  (forall k p,
     k < 10 ->
     (forall j, j < k -> build_posterior de j = Raise (e j)) ->
     build_posterior de k = Ok p ->
     sbi_train (Ok de) build_posterior =
       (inl p, map (fun j => (e j, Z.of_nat j + 2)%Z) (seq 0 k))) /\
  ((forall j, j < 10 -> build_posterior de j = Raise (e j)) ->
   sbi_train (Ok de) build_posterior =
     (inr (Exception (Some (e 9))),
      map (fun j => (e j, Z.of_nat j + 2)%Z) (seq 0 10))) /\
  (forall bp' : E -> nat -> result P,
     (forall j, j < 10 -> bp' de j = build_posterior de j) ->
     sbi_train (Ok de) bp' = sbi_train (Ok de) build_posterior).
Proof.
  unfold sbi_train. split; [|split].
  - intros k p Hk Hfail Hok.
    destruct (build_loop_success e p k 10 0 None [] Hk Hfail Hok)
      as (exception' & ->).
    simpl. f_equal. unfold warnings_of. apply map_ext. intros j.
    f_equal. lia.
  - intros Hfail. rewrite (build_loop_failure e 10 0 None [] Hfail).
    reflexivity.
  - intros bp' Hext. now rewrite (build_loop_ext bp' 10 0 None [] Hext).
Qed.

End TrainFacts.

(** ** The split into training and test samples *)

Lemma drop_zip {X Y} (n : nat) :
  forall (a : list X) (b : list Y), drop n (zip a b) = zip (drop n a) (drop n b).
Proof.
  induction n as [|n IH]; intros [|x a] [|y b]; simpl; try reflexivity.
  - now destruct (drop n a).
  - apply IH.
Qed.

Lemma slice_from_zip {X Y} (a : list X) (b : list Y) (start : Z) :
  length a = length b ->
  slice_from (zip a b) start = zip (slice_from a start) (slice_from b start).
Proof.
  intros Hlen. unfold slice_from.
  rewrite length_zip_with, <- Hlen, Nat.min_id. apply drop_zip.
Qed.

Lemma rows_zip {X Y} (a : list X) (b : list Y) (inds : list nat) :
  forall x y,
    rows a inds = Ok x -> rows b inds = Ok y ->
    rows (zip a b) inds = Ok (zip x y).
Proof.
  unfold rows. induction inds as [|i inds IH]; intros x y; simpl.
  - now intros [= <-] [= <-].
  - unfold getitem at 1 3.
    destruct (nth_error a i) as [xa|] eqn:Ea; simpl; [|discriminate].
    destruct (mapM (getitem a) inds) as [xs|]; simpl; [|discriminate].
    intros [= <-].
    destruct (nth_error b i) as [yb|] eqn:Eb; simpl; [|discriminate].
    destruct (mapM (getitem b) inds) as [ys|]; simpl; [|discriminate].
    intros [= <-].
    rewrite (IH xs ys eq_refl eq_refl). simpl.
    unfold getitem.
    assert (H : nth_error (zip a b) i = Some (xa, yb)).
    { clear -Ea Eb. revert a b Ea Eb.
      induction i as [|i IHi]; intros [|x a] [|y b]; simpl; try discriminate.
      - now intros [= ->] [= ->].
      - apply IHi. }
    now rewrite H.
Qed.

Lemma rows_In {X} (t : list X) (inds : list nat) :
  forall x, rows t inds = Ok x ->
    length x = length inds /\ Forall (fun r => In r t) x.
Proof.
  unfold rows. induction inds as [|i inds IH]; intros x; simpl.
  - intros [= <-]. split; [reflexivity | constructor].
  - unfold getitem at 1.
    destruct (nth_error t i) as [r|] eqn:Er; simpl; [|discriminate].
    destruct (mapM (getitem t) inds) as [rs|]; simpl; [|discriminate].
    intros [= <-]. destruct (IH rs eq_refl) as [Hl HF].
    split; [simpl; now rewrite Hl|].
    constructor; [eapply nth_error_In; exact Er | exact HF].
Qed.

(** X14: what [get_train_test_samples] returns, for priors' samples and
    simulation results of the same length [n] and [k = floor(ratio * n)]
    test samples.  The test samples and results are the last [k] rows when
    [0 < k <= n]; when [k = 0] they are not empty but all [n] rows (the
    slice [[-0:]] is the whole tensor).  Every sample stays paired with
    its own simulation result, in the test set and in the training set,
    and the training rows are those at the positions [random.sample]
    drew. *)
Theorem get_train_test_samples_split {A R}
    (n_test_samples_of : nat -> Z)
    (random_sample : list nat -> Z -> result (list nat))
    (priors_samples : list A) (sim_res : list R) (n_train_samples : option Z)
    (train_samples : list A) (train_res : list R)
    (test_samples : list A) (test_res : list R) :
  get_train_test_samples n_test_samples_of random_sample
    (Ok (priors_samples, sim_res)) n_train_samples =
    Ok (train_samples, train_res, test_samples, test_res) ->
  length priors_samples = length sim_res ->
  (n_test_samples_of (length sim_res) = 0%Z ->
   test_samples = priors_samples /\ test_res = sim_res) /\
  (forall k : nat,
     n_test_samples_of (length sim_res) = Z.of_nat k ->
     0 < k <= length sim_res ->
     test_samples = drop (length sim_res - k) priors_samples /\
     test_res = drop (length sim_res - k) sim_res /\
     length test_samples = k /\ length test_res = k) /\
  zip test_samples test_res =
    slice_from (zip priors_samples sim_res)
      (- n_test_samples_of (length sim_res)) /\
  (exists sampl_inds,
     random_sample (seq 0 (length sim_res))
       (match n_train_samples with
        | None => Z.of_nat (length sim_res)
                  - n_test_samples_of (length sim_res)
        | Some n => n
        end)%Z = Ok sampl_inds /\
     rows (zip priors_samples sim_res) sampl_inds =
       Ok (zip train_samples train_res) /\
     length train_samples = length sampl_inds /\
     length train_res = length sampl_inds).
Proof.
  unfold get_train_test_samples. cbn [rbind]. intros H Hlen.
  destruct (random_sample _ _) as [sampl_inds|] eqn:Hs; [|discriminate].
  cbn [rbind] in H.
  destruct (rows priors_samples sampl_inds) as [ts|] eqn:Hts; [|discriminate].
  cbn [rbind] in H.
  destruct (rows sim_res sampl_inds) as [tr|] eqn:Htr; [|discriminate].
  cbn [rbind] in H. injection H as <- <- <- <-.
  split; [|split; [|split]].
  - intros ->. unfold slice_from. change (- 0 <? 0)%Z with false. cbv iota.
    rewrite !Z.min_l by lia. split; reflexivity.
  - intros k -> Hk. unfold slice_from. rewrite Hlen.
    destruct (- Z.of_nat k <? 0)%Z eqn:E; [|apply Z.ltb_ge in E; lia].
    replace (Z.to_nat (Z.max (- Z.of_nat k + Z.of_nat (length sim_res)) 0))
      with (length sim_res - k) by lia.
    split; [reflexivity|]. split; [reflexivity|].
    rewrite !length_drop. lia.
  - symmetry. now apply slice_from_zip.
  - exists sampl_inds. split; [reflexivity|].
    split; [now apply rows_zip|].
    split; [apply (rows_In _ _ _ Hts) | apply (rows_In _ _ _ Htr)].
Qed.

Lemma get_train_test_samples_split_witness :
  get_train_test_samples (fun _ => 0%Z) (fun population _ => Ok population)
    (Ok ([1; 2; 3]%Z, [10; 20; 30]%Z)) None =
    Ok ([1; 2; 3]%Z, [10; 20; 30]%Z, [1; 2; 3]%Z, [10; 20; 30]%Z) /\
  zip [1; 2; 3]%Z [10; 20; 30]%Z =
    slice_from (zip [1; 2; 3]%Z [10; 20; 30]%Z) (- 0).
Proof.
  split; [reflexivity|].
  apply (get_train_test_samples_split (fun _ => 0%Z)
           (fun population _ => Ok population)
           [1; 2; 3]%Z [10; 20; 30]%Z None
           [1; 2; 3]%Z [10; 20; 30]%Z [1; 2; 3]%Z [10; 20; 30]%Z);
    reflexivity.
Defined.

(** ** Collecting the posterior samples of the runs *)

Lemma contains_key_assoc {V} (key : string) (d : list (string * V)) :
  contains_key key d = true <-> assoc key d <> None.
Proof.
  unfold contains_key. induction d as [|[k v] d IH]; simpl.
  - split; [discriminate | congruence].
  - destruct (String.eqb key k); simpl; [split; congruence | exact IH].
Qed.

Lemma assoc_app {V} (k : string) (d d' : list (string * V)) :
  assoc k (d ++ d') =
  match assoc k d with Some v => Some v | None => assoc k d' end.
Proof.
  induction d as [|[k' v] d IH]; simpl; [reflexivity|].
  now destruct (String.eqb k k').
Qed.

Lemma assoc_append_at (key k : string) (x : value) (d : all_samples) :
  assoc k (append_at key x d) =
  if String.eqb k key
  then option_map (fun l => l ++ [x]) (assoc k d)
  else assoc k d.
Proof.
  induction d as [|[k' l] d IH]; simpl.
  - now destruct (String.eqb k key).
  - destruct (String.eqb key k') eqn:E1; simpl.
    + apply String.eqb_eq in E1 as <-.
      destruct (String.eqb k key); reflexivity.
    + destruct (String.eqb k k') eqn:E2.
      * apply String.eqb_eq in E2 as ->.
        rewrite String.eqb_sym, E1. reflexivity.
      * exact IH.
Qed.

Lemma assoc_In {V} (k : string) (v : V) (d : list (string * V)) :
  List.NoDup (map fst d) -> In (k, v) d -> assoc k d = Some v.
Proof.
  induction d as [|[k' v'] d IH]; simpl; [tauto|].
  intros Hnd [[= -> ->]|Hin].
  - now rewrite String.eqb_refl.
  - apply List.NoDup_cons_iff in Hnd as [Hnotin Hnd].
    destruct (String.eqb k k') eqn:E; [|auto].
    apply String.eqb_eq in E as ->. exfalso. apply Hnotin.
    apply in_map_iff. now exists (k', v).
Qed.

(** One step of the loop of [add_posterior_samples_iR]. *)
Lemma add_step_assoc (key k : string) (x : value) (all : all_samples) :
  assoc k (append_at key x
             (if contains_key key all then all else all ++ [(key, [])])) =
  if String.eqb k key then Some (default [] (assoc k all) ++ [x])
  else assoc k all.
Proof.
  rewrite assoc_append_at.
  destruct (String.eqb k key) eqn:E.
  - apply String.eqb_eq in E as ->.
    destruct (contains_key key all) eqn:Hc.
    + apply contains_key_assoc in Hc.
      destruct (assoc key all); [reflexivity | congruence].
    + rewrite assoc_app. simpl. rewrite String.eqb_refl.
      destruct (assoc key all) as [l|] eqn:Ha; [|reflexivity].
      assert (contains_key key all = true)
        by (apply contains_key_assoc; congruence).
      congruence.
  - destruct (contains_key key all); [reflexivity|].
    rewrite assoc_app. simpl. rewrite E. now destruct (assoc k all).
Qed.

Lemma add_posterior_samples_iR_ok (samples_iR : samples_fit) :
  forall all : all_samples,
    well_formed samples_iR ->
    exists all',
      add_posterior_samples_iR all samples_iR = (Ok tt, all') /\
      forall key,
        assoc key all' =
        match contribution key samples_iR with
        | Some x => Some (default [] (assoc key all) ++ [x])
        | None => assoc key all
        end.
Proof.
  unfold well_formed, contribution.
  induction samples_iR as [|[key val] rest IH]; intros all [Hnd Hwf].
  - exists all. split; [reflexivity|]. intros key. simpl.
    now destruct (String.eqb key "G").
  - cbn [map fst] in Hnd. apply List.NoDup_cons_iff in Hnd as [Hnotin Hnd].
    assert (Hrest : List.NoDup (map fst rest) /\
                    forall key val, In (key, val) rest -> key <> "G" ->
                      exists x, first val = Ok x).
    { split; [exact Hnd|]. intros k v Hin. apply Hwf. now right. }
    assert (Hnone : assoc key rest = None).
    { destruct (assoc key rest) as [v|] eqn:Ha; [|reflexivity].
      exfalso. apply Hnotin. clear -Ha.
      induction rest as [|[k' v'] rest IH]; simpl in *; [discriminate|].
      destruct (String.eqb key k') eqn:E; [left; now apply String.eqb_eq in E|].
      right. auto. }
    cbn [add_posterior_samples_iR].
    destruct (String.eqb key "G") eqn:EG.
    + apply String.eqb_eq in EG as ->.
      destruct (IH all Hrest) as (all' & -> & Hall').
      exists all'. split; [reflexivity|]. intros k. rewrite Hall'.
      cbn [assoc]. destruct (String.eqb k "G"); reflexivity.
    + destruct (Hwf key val) as [x Hx]; [now left | |].
      { intros ->. discriminate. }
      rewrite Hx.
      destruct (IH (append_at key x
                      (if contains_key key all then all
                       else all ++ [(key, [])])) Hrest) as (all' & -> & Hall').
      exists all'. split; [reflexivity|]. intros k. rewrite Hall'.
      rewrite add_step_assoc. cbn [assoc].
      destruct (String.eqb k "G") eqn:EkG.
      * destruct (String.eqb k key) eqn:Ek; [|reflexivity].
        apply String.eqb_eq in Ek as ->. congruence.
      * destruct (String.eqb k key) eqn:Ek.
        -- apply String.eqb_eq in Ek as ->. rewrite Hnone, Hx. reflexivity.
        -- reflexivity.
Qed.

(** X15: [add_posterior_samples_iR] on the dictionary of a run (no key
    twice, each value but that of [G] a non-empty list): it returns, and
    in the collection every key of the run other than [G] has [val[0]]
    appended at the end of its list (a list that starts empty when the key
    is new), while every other key, and [G] itself, is as it was. *)
Theorem add_posterior_samples_iR_spec (all : all_samples)
    (samples_iR : samples_fit) :
  well_formed samples_iR ->
  exists all',
    add_posterior_samples_iR all samples_iR = (Ok tt, all') /\
    (forall key val x,
       In (key, val) samples_iR -> key <> "G" -> first val = Ok x ->
       assoc key all' = Some (default [] (assoc key all) ++ [x])) /\
    (forall key,
       key = "G" \/ ~ In key (map fst samples_iR) ->
       assoc key all' = assoc key all).
Proof.
  intros Hwf.
  destruct (add_posterior_samples_iR_ok samples_iR all Hwf) as (all' & H & Hall').
  exists all'. split; [exact H|]. unfold contribution in Hall'. split.
  - intros key val x Hin HG Hx. rewrite Hall'.
    apply String.eqb_neq in HG. rewrite HG.
    rewrite (assoc_In key val samples_iR (proj1 Hwf) Hin), Hx. reflexivity.
  - intros key [->|Hnotin]; rewrite Hall'; [reflexivity|].
    destruct (String.eqb key "G"); [reflexivity|].
    destruct (assoc key samples_iR) as [v|] eqn:Ha; [|reflexivity].
    exfalso. apply Hnotin. clear -Ha.
    induction samples_iR as [|[k' v'] rest IH]; simpl in *; [discriminate|].
    destruct (String.eqb key k') eqn:E; [left; now apply String.eqb_eq in E|].
    right. auto.
Qed.

Lemma add_posterior_samples_iR_spec_witness :
  exists all',
    add_posterior_samples_iR runs_ex (samples_fit_ex 10) = (Ok tt, all') /\
    assoc "map" all' = Some [Lst [Num 1; Num 2]; Lst [Num 1; Num 2]]%Z /\
    assoc "G" all' = None.
Proof.
  destruct (add_posterior_samples_iR_spec runs_ex (samples_fit_ex 10))
    as (all' & H & Hadd & Hkeep).
  - split.
    + repeat constructor; simpl; intuition discriminate.
    + intros key val [[= <- <-]|[[= <- <-]|[[= <- <-]|[]]]] HG;
        [congruence | eexists; reflexivity | eexists; reflexivity].
  - exists all'. split; [exact H|]. split.
    + apply (Hadd "map" (Lst [Lst [Num 1; Num 2]])%Z);
        [simpl; auto | discriminate | reflexivity].
    + apply (Hkeep "G"). now left.
Defined.

Lemma omap_cons_eq {X Y} (f : X -> option Y) (x : X) (l : list X) :
  omap f (x :: l) =
  match f x with Some y => y :: omap f l | None => omap f l end.
Proof. reflexivity. Qed.

Section CollectFacts.

Variable config : Config.
Variable posterior_samples_filepath : option Z -> option Z -> string -> string.
Variable pickles : gmap string (result samples_fit).

Lemma all_runs_loop_collects (iG G : Z) (label : string) (runs : list Z) :
  index (Gs config) iG = Ok G ->
  (forall iR s, In iR runs ->
     load_posterior_samples posterior_samples_filepath pickles
       (Some iG) (Some iR) label = Ok s -> well_formed s) ->
  forall (samples : all_samples) (log : list warning),
  exists samples',
    all_runs_loop config posterior_samples_filepath pickles iG label runs
      samples log =
      (Ok samples',
       log ++ omap (fun iR =>
                      match load_posterior_samples posterior_samples_filepath
                              pickles (Some iG) (Some iR) label with
                      | Raise e => Some (mk_warning iG G (Some iR) e)
                      | Ok _ => None
                      end) runs) /\
    forall key,
      assoc key samples' =
      match omap (fun iR =>
                    match load_posterior_samples posterior_samples_filepath
                            pickles (Some iG) (Some iR) label with
                    | Ok s => contribution key s
                    | Raise _ => None
                    end) runs with
      | [] => assoc key samples
      | l => Some (default [] (assoc key samples) ++ l)
      end.
Proof.
  intros HG. induction runs as [|iR runs IH]; intros Hwf samples log.
  - exists samples. split; [simpl; now rewrite app_nil_r | reflexivity].
  - cbn [all_runs_loop]. setoid_rewrite omap_cons_eq.
    destruct (load_posterior_samples posterior_samples_filepath pickles
                (Some iG) (Some iR) label) as [s|e] eqn:Hl.
    + destruct (add_posterior_samples_iR_ok s samples) as (all1 & -> & H1).
      { apply (Hwf iR); [now left | exact Hl]. }
      destruct (IH (fun iR' s' Hin => Hwf iR' s' (or_intror Hin)) all1 log)
        as (samples' & -> & H').
      exists samples'. split; [reflexivity|]. intros key.
      rewrite H', H1.
      destruct (contribution key s) as [x|]; [|reflexivity].
      match goal with
      | |- match ?l with [] => _ | _ :: _ => _ end = _ =>
          destruct l as [|y l']
      end; [reflexivity|].
      simpl. now rewrite <- app_assoc.
    + rewrite HG.
      destruct (IH (fun iR' s' Hin => Hwf iR' s' (or_intror Hin)) samples
                  (log ++ [mk_warning iG G (Some iR) e]))
        as (samples' & -> & H').
      exists samples'. split; [now rewrite <- app_assoc | exact H'].
Qed.

(** X16: [load_posterior_samples_all_runs] collects the runs that load.
    For an [iG] that indexes [config.Gs] and runs whose files, when they
    load, hold dictionaries as [write_posterior_samples] pickles them: the
    call returns; under each key the result lists [val[0]] of exactly the
    runs that loaded and have the key, in the order of [runs]; a key no
    loaded run has is absent, and so is [G]; and there is one warning per
    run that failed to load, in the order of [runs], and no other. *)
Theorem load_posterior_samples_all_runs_collects (iG G : Z) (label : string)
    (runs : list Z) (log : list warning) :
  index (Gs config) iG = Ok G ->
  (forall iR s, In iR runs ->
     load_posterior_samples posterior_samples_filepath pickles
       (Some iG) (Some iR) label = Ok s -> well_formed s) ->
  exists samples,
    load_posterior_samples_all_runs config posterior_samples_filepath pickles
      iG (Some runs) label None log =
      (Ok samples,
       log ++ omap (fun iR =>
                      match load_posterior_samples posterior_samples_filepath
                              pickles (Some iG) (Some iR) label with
                      | Raise e => Some (mk_warning iG G (Some iR) e)
                      | Ok _ => None
                      end) runs) /\
    assoc "G" samples = None /\
    forall key,
      assoc key samples =
      match omap (fun iR =>
                    match load_posterior_samples posterior_samples_filepath
                            pickles (Some iG) (Some iR) label with
                    | Ok s => contribution key s
                    | Raise _ => None
                    end) runs with
      | [] => None
      | l => Some l
      end.
Proof.
  intros HG Hwf. unfold load_posterior_samples_all_runs. cbn [default].
  destruct (all_runs_loop_collects iG G label runs HG Hwf [] log)
    as (samples & H & Hs).
  exists samples. split; [exact H|].
  assert (Hall : forall key,
             assoc key samples =
             match omap (fun iR =>
                           match load_posterior_samples
                                   posterior_samples_filepath pickles
                                   (Some iG) (Some iR) label with
                           | Ok s => contribution key s
                           | Raise _ => None
                           end) runs with
             | [] => None
             | l => Some l
             end).
  { intros key. rewrite Hs. now destruct (omap _ runs). }
  split; [|exact Hall].
  rewrite Hall.
  replace (omap _ runs) with (@nil value); [reflexivity|].
  clear. induction runs as [|iR runs IH]; [reflexivity|].
  rewrite omap_cons_eq. unfold contribution at 1. cbn [String.eqb Ascii.eqb Bool.eqb].
  destruct (load_posterior_samples _ _ _ _ _); exact IH.
Qed.

End CollectFacts.

Lemma load_posterior_samples_all_runs_collects_witness :
  exists samples,
    load_posterior_samples_all_runs config_ex posterior_samples_filepath_ex
      pickles_ex 0 (Some [0; 7]%Z) "" None [] =
      (Ok samples, [mk_warning 0 10 (Some 7%Z) FileNotFoundError]) /\
    assoc "G" samples = None /\
    assoc "map" samples = Some [Lst [Num 1; Num 2]].
Proof.
  destruct (load_posterior_samples_all_runs_collects config_ex
              posterior_samples_filepath_ex
              pickles_ex 0 10 "" [0; 7]%Z [])
    as (samples & H & HG & Hs).
  - reflexivity.
  - intros iR s [<-|[<-|[]]]; vm_compute; intros [= <-].
    split.
    + repeat constructor; simpl; intuition discriminate.
    + intros key val [[= <- <-]|[[= <- <-]|[[= <- <-]|[]]]] HG;
        [congruence | eexists; reflexivity | eexists; reflexivity].
  - exists samples. split; [exact H|]. split; [exact HG|].
    rewrite Hs. reflexivity.
Defined.

(** ** The dictionaries of samples *)

Lemma setitem_str_new {V} (key : string) (v : V) (d : list (string * V)) :
  assoc key d = None -> setitem_str key v d = d ++ [(key, v)].
Proof.
  induction d as [|[k v'] d IH]; simpl; [reflexivity|].
  destruct (String.eqb key k); [discriminate|].
  intros H. now rewrite IH.
Qed.

Lemma pad_spec (n : nat) (l : positive) (defval : obj) :
  forall (h : heap) (items : list obj),
    h !! l = Some items ->
    pad n l defval h = <[l := items ++ replicate n defval]> h.
Proof.
  induction n as [|n IH]; intros h items Hl; cbn [pad replicate].
  - rewrite app_nil_r. symmetry. now apply insert_id.
  - rewrite (IH _ (items ++ [defval]))
      by (now rewrite lookup_alter_eq, Hl).
    rewrite <- app_assoc. cbn [app].
    apply map_eq. intros l'. destruct (decide (l' = l)) as [->|Hne].
    + now rewrite !lookup_insert_eq.
    + now rewrite !lookup_insert_ne, lookup_alter_ne by congruence.
Qed.

Lemma position_Ok (n : nat) (i : Z) :
  (0 <= i < Z.of_nat n)%Z -> position n i = Ok (Z.to_nat i).
Proof.
  intros H. unfold position.
  destruct (i <? 0)%Z eqn:E; [apply Z.ltb_lt in E; lia|].
  destruct (0 <=? i)%Z eqn:E1; [|apply Z.leb_gt in E1; lia].
  destruct (i <? Z.of_nat n)%Z eqn:E2; [|apply Z.ltb_ge in E2; lia].
  reflexivity.
Qed.

Lemma getitem_lookup {X} (l : list X) (i : nat) (x : X) :
  l !! i = Some x -> getitem l i = Ok x.
Proof.
  unfold getitem. revert i. induction l as [|y l IH]; intros [|i]; simpl;
    try discriminate.
  - now intros [= ->].
  - apply IH.
Qed.

(** X17: [safely_append_item_iR] on a key the dictionary does not have,
    for a run index [iR >= -1] (-1 meaning the next run, here 0).  The
    call returns the dictionary with the key added last; the value of the
    key is a new list of [iR + 1] slots, and every slot is one and the same
    new list object, which holds [val] alone: for [iR = 0] this is
    [[[val]]], and for [iR > 0] the value shows under every earlier run
    index too.  No list that existed is changed. *)
Theorem safely_append_item_iR_new_key (d : dict) (iR : Z) (key : string)
    (val : obj) (h : heap) :
  assoc key d = None ->
  (-1 <= iR)%Z ->
  exists l0 l1 h',
    safely_append_item_iR d iR key val h =
      (Ok (d ++ [(key, ListRef l0)]), h') /\
    h !! l0 = None /\ h !! l1 = None /\ l0 <> l1 /\
    h' !! l0 =
      Some (replicate (Z.to_nat (if (iR =? -1)%Z then 0 else iR) + 1)
              (ListRef l1)) /\
    h' !! l1 = Some [val] /\
    (forall l, l <> l0 -> l <> l1 -> h' !! l = h !! l).
Proof.
  intros Hkey HiR.
  set (l1 := fresh (dom h)).
  set (h1 := <[l1 := []]> h).
  set (l0 := fresh (dom h1)).
  set (h2 := <[l0 := []]> h1).
  set (n := (if (iR =? -1)%Z then 0 else iR)%Z).
  assert (Hn : (0 <= n)%Z).
  { unfold n. destruct (iR =? -1)%Z eqn:E; [lia|]. apply Z.eqb_neq in E. lia. }
  assert (F1 : h !! l1 = None) by apply not_elem_of_dom, is_fresh.
  assert (F0 : h1 !! l0 = None) by apply not_elem_of_dom, is_fresh.
  assert (Hne : l0 <> l1).
  { intros E. rewrite E in F0. unfold h1 in F0.
    rewrite lookup_insert_eq in F0. discriminate. }
  assert (F0' : h !! l0 = None).
  { unfold h1 in F0. now rewrite lookup_insert_ne in F0 by congruence. }
  set (h3 := <[l0 := replicate (Z.to_nat n + 1) (ListRef l1)]> h2).
  assert (Hd : assoc key (d ++ [(key, ListRef l0)]) = Some (ListRef l0)).
  { rewrite assoc_app, Hkey. simpl. now rewrite String.eqb_refl. }
  assert (Hset : safely_set_key_list_iR d iR key (ListRef l1) h1 =
                 (Ok (d ++ [(key, ListRef l0)], n), h3)).
  { unfold safely_set_key_list_iR. rewrite Hkey.
    unfold new_list. fold l0. fold h2.
    rewrite setitem_str_new by exact Hkey.
    unfold getlist at 1. rewrite Hd.
    assert (H2 : h2 !! l0 = Some []) by apply lookup_insert_eq.
    rewrite H2. cbn [length]. change (Z.of_nat 0) with 0%Z. fold n.
    rewrite (pad_spec _ l0 (ListRef l1) h2 [] H2). cbn [app].
    replace (Z.to_nat (n + 1 - 0)) with (Z.to_nat n + 1)%nat by lia.
    fold h3. unfold getlist. rewrite Hd.
    assert (H3 : h3 !! l0 = Some (replicate (Z.to_nat n + 1) (ListRef l1)))
      by apply lookup_insert_eq.
    rewrite H3, position_Ok by (rewrite length_replicate; lia).
    rewrite lookup_replicate_2 by lia. reflexivity. }
  exists l0, l1, (alter (fun items => items ++ [val]) l1 h3).
  split; [|split; [exact F0'|split; [exact F1|split; [exact Hne|]]]].
  - unfold safely_append_item_iR, new_list. fold l1. fold h1. rewrite Hset.
    unfold getlist. rewrite Hd.
    assert (H3 : h3 !! l0 = Some (replicate (Z.to_nat n + 1) (ListRef l1)))
      by apply lookup_insert_eq.
    rewrite H3, position_Ok by (rewrite length_replicate; lia).
    cbn [rbind].
    rewrite (getitem_lookup _ _ (ListRef l1))
      by (apply lookup_replicate_2; lia).
    reflexivity.
  - split; [|split].
    + rewrite lookup_alter_ne by congruence. apply lookup_insert_eq.
    + rewrite lookup_alter_eq. unfold h3, h2, h1.
      rewrite !lookup_insert_ne by congruence.
      now rewrite lookup_insert_eq.
    + intros l Hl0 Hl1. rewrite lookup_alter_ne by congruence.
      unfold h3, h2, h1. now rewrite !lookup_insert_ne by congruence.
Qed.

Lemma safely_append_item_iR_new_key_witness :
  exists l0 l1 h',
    safely_append_item_iR [("G", Atom 10)] 2 "mean" (Atom 3) ∅ =
      (Ok ([("G", Atom 10)] ++ [("mean", ListRef l0)]), h') /\
    (∅ : heap) !! l0 = None /\ (∅ : heap) !! l1 = None /\ l0 <> l1 /\
    h' !! l0 = Some (replicate (Z.to_nat (if (2 =? -1)%Z then 0 else 2) + 1)
                       (ListRef l1)) /\
    h' !! l1 = Some [Atom 3] /\
    (forall l, l <> l0 -> l <> l1 -> h' !! l = (∅ : heap) !! l).
Proof.
  apply (safely_append_item_iR_new_key [("G", Atom 10)] 2 "mean" (Atom 3) ∅);
    [reflexivity | lia].
Defined.

(** X18: [safely_append_item_iR] on a key whose value is a list with a
    list at run index [iR] (as every earlier call with that key and index
    leaves it).  The call returns the same dictionary and appends [val] at
    the end of the list at index [iR], in place; the list of the key and
    every other list that existed are unchanged. *)
Theorem safely_append_item_iR_existing (d : dict) (iR : Z) (key : string)
    (val : obj) (h : heap) (l0 l1 : positive) (items vs : list obj) :
  assoc key d = Some (ListRef l0) ->
  h !! l0 = Some items ->
  (0 <= iR < Z.of_nat (length items))%Z ->
  items !! Z.to_nat iR = Some (ListRef l1) ->
  h !! l1 = Some vs ->
  exists h',
    safely_append_item_iR d iR key val h = (Ok d, h') /\
    h' !! l1 = Some (vs ++ [val]) /\
    (l0 <> l1 -> h' !! l0 = Some items) /\
    (forall l, is_Some (h !! l) -> l <> l1 -> h' !! l = h !! l).
Proof.
  intros Hkey H0 HiR Hi H1.
  set (ld := fresh (dom h)).
  set (h1 := <[ld := []]> h).
  assert (Fd : h !! ld = None) by apply not_elem_of_dom, is_fresh.
  assert (Hold : forall l, is_Some (h !! l) -> h1 !! l = h !! l).
  { intros l [x Hx]. unfold h1. rewrite lookup_insert_ne; [reflexivity|].
    intros <-. congruence. }
  assert (H0' : h1 !! l0 = Some items) by (rewrite Hold; eauto).
  assert (H1' : h1 !! l1 = Some vs) by (rewrite Hold; eauto).
  assert (Hset : safely_set_key_list_iR d iR key (ListRef ld) h1 =
                 (Ok (d, iR), h1)).
  { unfold safely_set_key_list_iR. rewrite Hkey.
    unfold getlist. rewrite Hkey, H0'.
    destruct (iR =? -1)%Z eqn:E; [apply Z.eqb_eq in E; lia|].
    replace (Z.to_nat (iR + 1 - Z.of_nat (length items))) with O by lia.
    cbn [pad]. rewrite H0', position_Ok by exact HiR.
    now rewrite Hi. }
  exists (alter (fun items => items ++ [val]) l1 h1).
  split; [|split; [|split]].
  - unfold safely_append_item_iR, new_list. fold ld. fold h1. rewrite Hset.
    unfold getlist. rewrite Hkey, H0', position_Ok by exact HiR.
    cbn [rbind]. now rewrite (getitem_lookup _ _ _ Hi).
  - now rewrite lookup_alter_eq, H1'.
  - intros Hne. now rewrite lookup_alter_ne by congruence.
  - intros l Hl Hne. rewrite lookup_alter_ne by congruence. now apply Hold.
Qed.

Lemma safely_append_item_iR_existing_witness :
  exists h',
    safely_append_item_iR [("mean", ListRef 1)] 0 "mean" (Atom 4)
      (<[1%positive := [ListRef 2]]> {[ 2%positive := [Atom 3] ]}) =
      (Ok [("mean", ListRef 1)], h') /\
    h' !! 2%positive = Some ([Atom 3] ++ [Atom 4]).
Proof.
  destruct (safely_append_item_iR_existing [("mean", ListRef 1)] 0 "mean"
              (Atom 4)
              (<[1%positive := [ListRef 2]]> {[ 2%positive := [Atom 3] ]})
              1%positive 2%positive [ListRef 2] [Atom 3])
    as (h' & H & H1 & _); try reflexivity.
  - simpl. lia.
  - exists h'. split; [exact H | exact H1].
Defined.

(** ** Reading the archive where it was written *)

(** X19: the file round trip for any target.  [NPZWriter.send] of a pair
    of arrays to a target [t] followed by [NPZReader.receive] from the path
    [np.savez] wrote ([t] itself when it ends in [.npz], [t + ".npz"]
    otherwise) returns two arrays with the contents of the pair, provided
    both are numeric; when one of the pair is an object array, the archive
    is written all the same and [receive] raises [ValueError] ([np.load]
    does not unpickle). *)
Theorem npz_round_trip_written_path (w : world) (target : string)
    (l0 l1 : loc) (a0 a1 : ndarray) :
  arrays w !! l0 = Some a0 ->
  arrays w !! l1 = Some a1 ->
  can_open_w w (npz_name target) = true ->
  (numeric a0 = true -> numeric a1 = true ->
   reproduces w l0 l1 (npz_round_trip target (npz_name target) l0 l1 w)) /\
  (numeric a0 && numeric a1 = false ->
   fst (npz_round_trip target (npz_name target) l0 l1 w) = Raise ValueError /\
   files (snd (npz_round_trip target (npz_name target) l0 l1 w))
     !! npz_name target =
     Some (ZipFile ZIP_STORED [("time.npy", a0); ("values.npy", a1)])).
Proof.
  intros H0 H1 Hw.
  unfold npz_round_trip, bind, send.
  rewrite (NPZWriter_send_spec w target l0 l1 [] a0 a1 H0 H1), Hw.
  set (w1 := set_files _ w).
  assert (Hf : files w1 !! npz_name target =
               Some (ZipFile ZIP_STORED [("time.npy", a0); ("values.npy", a1)]))
    by apply lookup_insert_eq.
  split.
  - intros N0 N1.
    destruct (NPZReader_receive_spec w1 (npz_name target) ZIP_STORED a0 a1)
      as (lt & lv & w2 & Hr & _ & _ & Hne & Ha & _); try assumption.
    unfold receive. rewrite Hr. exists lt, lv, a0, a1; simpl.
    repeat split; try assumption.
    + rewrite Ha, lookup_insert_ne, lookup_insert_eq by congruence.
      reflexivity.
    + rewrite Ha, lookup_insert_eq. reflexivity.
  - intros HN. unfold receive, NPZReader_receive, bind, np_load, lift.
    rewrite Hf, npz_getitem_time, npz_getitem_values.
    unfold read_array.
    destruct (numeric a0); simpl; [|split; [reflexivity | exact Hf]].
    simpl in HN. rewrite HN. simpl. split; [reflexivity|]. exact Hf.
Qed.

Lemma npz_round_trip_written_path_witness :
  reproduces world_ex time_ref values_ref
    (npz_round_trip "data" (npz_name "data") time_ref values_ref world_ex).
Proof.
  apply (npz_round_trip_written_path world_ex "data" time_ref values_ref
           time_ex values_ex);
    vm_compute; reflexivity.
Defined.

(** ** Batches: a file that cannot be written, and the sizes *)

Lemma batches_loop_app {A} (config : Config) (s : list A) (iG : option Z)
    (w : bool) (filepath extension : string) (l1 l2 : list nat) :
  forall (acc : list (list A)) (d : disk),
    batches_loop config s iG w filepath extension (l1 ++ l2) acc d =
    match batches_loop config s iG w filepath extension l1 acc d with
    | (Ok acc', d') =>
        batches_loop config s iG w filepath extension l2 acc' d'
    | (Raise e, d') => (Raise e, d')
    end.
Proof.
  induction l1 as [|iB l1 IH]; intros acc d; simpl; [reflexivity|].
  destruct w; [|apply IH].
  destruct (torch_save _ _ d) as [[[]|e] d1]; [apply IH | reflexivity].
Qed.

(** X20: a batch file that cannot be written.  When the file of batch
    [iB0] is the first that cannot be written, [priors_samples_per_batch]
    raises [RuntimeError], the exception of [torch.save], and returns no
    batch, yet the files of the batches before [iB0] have been written and
    stay (different batch numbers giving different paths), and no other
    file has changed. *)
Theorem priors_samples_per_batch_write_failure {A}
    (sample_priors_for_sbi : Config -> result (list A)) (s : list A)
    (iG : option Z) (config : Config) (d : disk) (iB0 : nat) :
  iB0 < Z.to_nat (N_SIM_BATCHES config) ->
  writable d (batch_priors_filepath iB0 config iG
                (fst (PRIORS_SAMPLES_PATH config))
                (snd (PRIORS_SAMPLES_PATH config))) = false ->
  (forall iB, iB < iB0 ->
     writable d (batch_priors_filepath iB config iG
                   (fst (PRIORS_SAMPLES_PATH config))
                   (snd (PRIORS_SAMPLES_PATH config))) = true) ->
  (forall i j, i < iB0 -> j < iB0 ->
     batch_priors_filepath i config iG (fst (PRIORS_SAMPLES_PATH config))
       (snd (PRIORS_SAMPLES_PATH config)) =
     batch_priors_filepath j config iG (fst (PRIORS_SAMPLES_PATH config))
       (snd (PRIORS_SAMPLES_PATH config)) -> i = j) ->
  exists d',
    priors_samples_per_batch sample_priors_for_sbi (Some s) iG config true d
      = (Raise RuntimeError, d') /\
    (forall iB, iB < iB0 ->
       load_priors_samples_per_batch iB iG config d' =
         Ok (slice_from_step s iB (Z.to_nat (N_SIM_BATCHES config)))) /\
    (forall p,
       (forall iB, iB < iB0 ->
          p <> batch_priors_filepath iB config iG
                 (fst (PRIORS_SAMPLES_PATH config))
                 (snd (PRIORS_SAMPLES_PATH config))) ->
       saved d' !! p = saved d !! p).
Proof.
  unfold priors_samples_per_batch, load_priors_samples_per_batch, torch_load.
  destruct (PRIORS_SAMPLES_PATH config) as [filepath extension]. simpl.
  intros HiB0 Hbad Hgood Hinj.
  assert (Hseq : range (N_SIM_BATCHES config) =
                 seq 0 iB0 ++
                 iB0 :: seq (S iB0) (Z.to_nat (N_SIM_BATCHES config) - S iB0)).
  { unfold range.
    replace (Z.to_nat (N_SIM_BATCHES config))
      with (iB0 + S (Z.to_nat (N_SIM_BATCHES config) - S iB0)) at 1 by lia.
    now rewrite seq_app. }
  rewrite Hseq, batches_loop_app.
  destruct (batches_loop_spec config s iG true filepath extension
              (seq 0 iB0) [] d) as (d1 & Hl & Hw1).
  { intros _ iB HiB. apply in_seq in HiB. apply Hgood. lia. }
  rewrite Hl. cbn [batches_loop]. unfold torch_save. rewrite Hw1, Hbad.
  exists d1. split; [reflexivity|].
  destruct (batches_loop_saved _ _ _ _ _ _ _ _ _ _ Hl) as [Hframe Hget].
  split.
  - intros iB HiB. rewrite Hget; [reflexivity | apply seq_NoDup | |].
    + intros i j Hi Hj. apply in_seq in Hi, Hj. apply Hinj; lia.
    + apply in_seq. lia.
  - intros p Hp. apply Hframe. intros iB HiB. apply in_seq in HiB.
    apply Hp. lia.
Qed.

Lemma priors_samples_per_batch_write_failure_witness :
  exists d',
    priors_samples_per_batch (fun _ => Raise ValueError)
      (Some [10; 11; 12; 13; 14]%Z) None config_ex true
      (mk_disk ∅ (fun p => negb (String.eqb p "priors_samples_1.pt")))
      = (Raise RuntimeError, d') /\
    load_priors_samples_per_batch 0 None config_ex d' = Ok [10; 12; 14]%Z.
Proof.
  destruct (priors_samples_per_batch_write_failure
              (fun _ => Raise ValueError) [10; 11; 12; 13; 14]%Z None
              config_ex
              (mk_disk ∅ (fun p => negb (String.eqb p "priors_samples_1.pt")))
              1) as (d' & H & Hload & _).
  - vm_compute. lia.
  - reflexivity.
  - intros [|iB] HiB; [reflexivity | lia].
  - intros i j Hi Hj _. lia.
  - exists d'. split; [exact H|]. apply (Hload 0). lia.
Defined.

Lemma length_omap_lookup {A} (s : list A) (l : list nat) :
  (forall i, In i l -> i < length s) ->
  length (omap (fun i => s !! i) l) = length l.
Proof.
  induction l as [|i l IH]; intros H; [reflexivity|].
  rewrite omap_cons_eq.
  destruct (s !! i) as [x|] eqn:E.
  - simpl. rewrite IH; [reflexivity|]. intros j Hj. apply H. now right.
  - apply lookup_ge_None in E. specialize (H i (or_introl eq_refl)). lia.
Qed.

(** X21: the batches are balanced.  For [N >= 1] batches of [n] samples,
    batch [iB] (below [N]) holds [n // N] samples, and one more when
    [iB < n % N]: the sizes differ by one at most, the larger batches come
    first, and with fewer samples than batches the last [N - n] batches are
    empty. *)
Theorem batch_sizes {A} (s : list A) (N iB : nat) :
  0 < N ->
  iB < N ->
  length (slice_from_step s iB N) =
    length s / N + (if (iB <? length s mod N)%nat then 1 else 0).
Proof.
  intros HN HiB. unfold slice_from_step.
  rewrite length_omap_lookup
    by (intros i Hi; apply In_slice_indices in Hi; [tauto | exact HiB]).
  unfold slice_indices. rewrite length_map, length_seq.
  set (n := length s).
  pose proof (Nat.div_mod_eq n N) as Hn.
  pose proof (Nat.mod_upper_bound n N ltac:(lia)) as Hr.
  set (q := n / N) in *. set (r := n mod N) in *.
  destruct (iB <? r)%nat eqn:E.
  - apply Nat.ltb_lt in E.
    rewrite Nat.min_l by nia.
    symmetry. apply (Nat.div_unique _ _ _ (r - iB - 1)); nia.
  - apply Nat.ltb_ge in E.
    destruct (Nat.le_gt_cases iB n) as [Hle|Hgt].
    + rewrite Nat.min_l by lia.
      symmetry. apply (Nat.div_unique _ _ _ (N - 1 - (iB - r))); nia.
    + rewrite Nat.min_r by lia.
      assert (q = 0) by nia. subst q.
      replace (n - n + N - 1) with (N - 1) by lia.
      rewrite Nat.div_small by lia. lia.
Qed.

Lemma batch_sizes_witness :
  length (slice_from_step [10; 11; 12; 13; 14]%Z 1 2) =
    length [10; 11; 12; 13; 14]%Z / 2 +
    (if (1 <? length [10; 11; 12; 13; 14]%Z mod 2)%nat then 1 else 0).
Proof.
  apply (batch_sizes [10; 11; 12; 13; 14]%Z 2 1); lia.
Defined.
